(** * Hybrid DV/HDR tool: the client-side state layer, embedded in Rocq

    The development follows the TypeScript sources of the tool view
    ([HybridDVHDRTool]) in its three revisions:

    - [V1]: the revision with the HDR10+ slot, presets, drag-and-drop
      assignment, edge-triggered notifications and windowed ETA smoothing;
    - [V2]: the revision that derives the mode from the path kinds only and
      extrapolates the ETA from the elapsed time;
    - [V3]: the revision with lazy initialisers reading the client storage.

    JavaScript numbers are modelled by exact rationals ([Qc]), timestamps
    ([Date.now()]) by integers, strings by [string], [Map<string, _>] by
    [gmap string _], [Set<string>] by [gset string], arrays by lists. *)

From stdpp Require Import gmap strings list fin_maps pretty.
From Stdlib Require Import Ascii QArith Qcanon Qround.

Local Open Scope string_scope.
Local Open Scope list_scope.

(** ** JavaScript string primitives used by the sources *)

Module Js.

Definition backslash : ascii := ascii_of_nat 92.
Definition slash : ascii := ascii_of_nat 47.

Definition chr (c : ascii) : string := String c EmptyString.

(** Truthiness of a string: only the empty string is falsy. *)
Definition truthy (s : string) : bool :=
  match s with EmptyString => false | String _ _ => true end.

(** [a || b] on strings. *)
Definition or_else (a b : string) : string := if truthy a then a else b.

(** [s.startsWith(p)] *)
Fixpoint startsWith (s p : string) : bool :=
  match p, s with
  | EmptyString, _ => true
  | String _ _, EmptyString => false
  | String a p', String b s' => if Ascii.eqb a b then startsWith s' p' else false
  end.

(** [s.endsWith(suffix)]: some tail of [s] is [suffix]. *)
Fixpoint endsWith (s suffix : string) : bool :=
  if String.eqb s suffix then true
  else match s with
       | EmptyString => false
       | String _ s' => endsWith s' suffix
       end.

(** [s.includes(sub)] *)
Fixpoint includes (s sub : string) : bool :=
  if startsWith s sub then true
  else match s with
       | EmptyString => false
       | String _ s' => includes s' sub
       end.

Fixpoint drop (n : nat) (s : string) : string :=
  match n, s with
  | O, _ => s
  | S _, EmptyString => EmptyString
  | S n', String _ s' => drop n' s'
  end.

(** [s.replace(pat, rep)] with a string pattern: only the first (leftmost)
    occurrence is replaced. *)
Fixpoint replace (s pat rep : string) : string :=
  if startsWith s pat then rep +:+ drop (String.length pat) s
  else match s with
       | EmptyString => EmptyString
       | String c s' => String c (replace s' pat rep)
       end.

(** [s.split(sep)] for a one-character separator. *)
Fixpoint split (sep : ascii) (s : string) : list string :=
  match s with
  | EmptyString => [EmptyString]
  | String c s' =>
      if Ascii.eqb c sep then EmptyString :: split sep s'
      else match split sep s' with
           | [] => [chr c]
           | h :: t => String c h :: t
           end
  end.

(** [arr.filter(Boolean)] on an array of strings. *)
Definition filterBoolean (l : list string) : list string :=
  List.filter truthy l.

(** [arr.pop()]: the last element, [undefined] on the empty array. *)
Definition pop (l : list string) : option string := last l.

(** [s.toLowerCase()] on the ASCII range. *)
Definition lower_ascii (c : ascii) : ascii :=
  let n := nat_of_ascii c in
  if (65 <=? n)%nat && (n <=? 90)%nat then ascii_of_nat (n + 32) else c.

Fixpoint toLowerCase (s : string) : string :=
  match s with
  | EmptyString => EmptyString
  | String c s' => String (lower_ascii c) (toLowerCase s')
  end.

End Js.

(** ** Path classification *)

Inductive PathKind := KFile | KFolder | KUnknown.

Global Instance PathKind_eq_dec : EqDecision PathKind.
Proof. solve_decision. Defined.

(** [value.endsWith('\\') || value.endsWith('/')] *)
Definition endsWithSeparator (value : string) : bool :=
  Js.endsWith value (Js.chr Js.backslash) || Js.endsWith value (Js.chr Js.slash).

(** [inferPathKind], used when a preset is applied. *)
Definition inferPathKind (value : string) : PathKind :=
  if negb (Js.truthy value) then KUnknown
  else if endsWithSeparator value then KFolder
  else KFile.

(** The classification written inline in the [onChange] handlers of the
    path inputs. *)
Definition classifyInput (v : string) : PathKind :=
  if endsWithSeparator v then KFolder else KFile.

(** "The string ends in a path separator", stated on the characters. *)
Definition ends_in_separator (v : string) : Prop :=
  ∃ pre c, v = pre +:+ Js.chr c ∧ (c = Js.backslash ∨ c = Js.slash).

(** ** Numbers *)

(** JavaScript numbers are taken as exact rationals. The definitions keep the
    order of operations of the code, and the properties are stated on the
    expressions the code evaluates (comparisons, signs, the formulas as
    written); none of them rests on an identity that rounding breaks, such as
    the mean of equal rates being that rate. *)

(** An integer literal as a JavaScript number. *)
Definition num (z : Z) : Qc := Q2Qc (inject_Z z).

(** [Math.round]: the nearest integer, halves rounded up. *)
Definition Math_round (x : Qc) : Z := Qfloor (x + Q2Qc (1 # 2))%Qc.

(** [Math.max] on two numbers. *)
Definition Math_max (a b : Qc) : Qc := if decide (a < b)%Qc then b else a.

(** ** Data model (the shapes imported from [./types]) *)

Inductive ProcessingStatus := Idle | Processing | Completed | Error.
Inductive ProcessingMode := Single | Batch.
Inductive QueueStatus := QPending | QProcessing | QCompleted | QError.
Inductive StepStatus := SPending | SActive | SCompleted | SError.
Inductive LogType := LInfo | LSuccess | LWarning | LError.

Global Instance ProcessingStatus_eq_dec : EqDecision ProcessingStatus.
Proof. solve_decision. Defined.
Global Instance ProcessingMode_eq_dec : EqDecision ProcessingMode.
Proof. solve_decision. Defined.
Global Instance QueueStatus_eq_dec : EqDecision QueueStatus.
Proof. solve_decision. Defined.

Record ProcessingStep := mkStep {
  step_id : Z;
  step_name : string;
  step_description : string;
  step_status : StepStatus;
  step_progress : Qc;
}.

Record LogEntry := mkLog {
  log_id : string;
  log_timestamp : Z;
  log_type : LogType;
  log_message : string;
}.

Record QueueFile := mkQueueFile {
  q_id : string;
  q_hdrFile : string;
  q_dvFile : string;
  q_outputFile : string;
  q_hdrPath : string;
  q_dvPath : string;
  q_outputPath : string;
  q_status : QueueStatus;
  q_progress : Qc;
  q_currentStep : option string;
  q_etaSeconds : option Z;
  q_activeWorkers : option Z;
  q_fileTotal : option Z;
}.

Record FileProgressEntry := mkFileProgress {
  fp_id : string;
  fp_queueId : string;
  fp_name : string;
  fp_progress : Qc;
  fp_etaSeconds : option Z;
}.

Record QueuePayload := mkQueuePayload {
  qp_id : string;
  qp_status : QueueStatus;
  qp_progress : Qc;
  qp_currentStep : option string;
  qp_activeWorkers : option Z;
  qp_fileTotal : option Z;
}.

Record FileProgressPayload := mkFilePayload {
  fpp_id : string;
  fpp_queueId : string;
  fpp_name : string;
  fpp_progress : Qc;
}.

Definition defaultSteps : list ProcessingStep :=
  [ mkStep 1 "Extract Audio & Subtitles" "Extracting audio tracks and subtitles from HDR source" SPending (num 0);
    mkStep 2 "Extract DV Video" "Extracting H.265 video from Dolby Vision source" SPending (num 0);
    mkStep 3 "Extract RPU Data" "Extracting RPU metadata from DV stream" SPending (num 0);
    mkStep 4 "Extract HDR10 Video" "Extracting H.265 video from HDR10 source" SPending (num 0);
    mkStep 5 "Inject RPU Data" "Injecting RPU data into HDR10 video stream" SPending (num 0);
    mkStep 6 "Mux Final Output" "Combining video, audio, and subtitles into final MKV" SPending (num 0) ].

(** ** ETA smoothing ([computeSmoothedEta]) *)

Record Sample := mkSample { s_time : Z; s_progress : Qc }.

Record Meta := mkMeta {
  m_start : Z;
  m_lastProgress : Qc;
  m_samples : list Sample;
}.

Definition etaAveragingWindow : nat := 6.

(** [arr.slice(-n)]: the last [n] elements. *)
Definition slice_last {A} (n : nat) (l : list A) : list A :=
  drop (length l - n) l.

(** The rate between a sample and its predecessor, in percent per second;
    [0] when no time has passed. *)
Definition pair_rate (prev sample : Sample) : Qc :=
  let dt := (num (s_time sample - s_time prev) / num 1000)%Qc in
  let dp := (s_progress sample - s_progress prev)%Qc in
  if decide (0 < dt)%Qc then (dp / dt)%Qc else num 0.

(** [nextSamples.slice(1).map((sample, index) => ... nextSamples[index] ...)] *)
Definition sample_rates (nextSamples : list Sample) : list Qc :=
  imap (λ index sample,
          match nextSamples !! index with
          | Some prev => pair_rate prev sample
          | None => num 0
          end)
       (drop 1 nextSamples).

(** [.filter(rate => rate > 0)] *)
Definition positive_rates (rates : list Qc) : list Qc :=
  filter (λ rate, (0 < rate)%Qc) rates.

(** [deltas.reduce((sum, rate) => sum + rate, 0)] *)
Definition sum_rates (deltas : list Qc) : Qc :=
  foldl (λ sum rate, (sum + rate)%Qc) (num 0) deltas.

(** [computeSmoothedEta meta progress], with [now] the value of [Date.now()].
    The result is the returned ETA ([None] for [undefined]) and the [meta]
    object after the call ([meta.samples] is assigned in place). *)
Definition computeSmoothedEta (meta : Meta) (now : Z) (progress : Qc)
  : option Z * Meta :=
  if decide (progress <= 0)%Qc then (None, meta)
  else
    let nextSamples :=
      slice_last etaAveragingWindow (m_samples meta ++ [mkSample now progress]) in
    let deltas := positive_rates (sample_rates nextSamples) in
    let meta' := mkMeta (m_start meta) (m_lastProgress meta) nextSamples in
    match deltas with
    | [] => (None, meta')
    | _ :: _ =>
        let avgRate := (sum_rates deltas / num (Z.of_nat (length deltas)))%Qc in
        let remaining := Math_max (num 0) (num 100 - progress)%Qc in
        (Some (Math_round (remaining / avgRate)%Qc), meta')
    end.

(** * The revision with the HDR10+ slot, presets and ETA smoothing *)

Module V1.

Record PathKinds := mkPathKinds {
  pk_hdr : PathKind;
  pk_hdr10plus : PathKind;
  pk_dv : PathKind;
  pk_output : PathKind;
}.

Record ProcessingConfig := mkConfig {
  hdrPath : string;
  dvPath : string;
  outputPath : string;
  hdr10plusPath : string;
  dvDelayMs : Qc;
  hdr10plusDelayMs : Qc;
  mode : ProcessingMode;
  parallelTasks : Z;
  keepTempFiles : bool;
}.

Record ToolPaths := mkToolPaths {
  doviTool : string;
  mkvmerge : string;
  mkvextract : string;
  ffmpeg : string;
  mediainfo : string;
  mp4box : string;
  hdr10plusTool : string;
  defaultOutput : string;
}.

Record Preset := mkPreset {
  preset_id : string;
  preset_name : string;
  preset_config : ProcessingConfig;
  preset_toolPaths : ToolPaths;
  preset_dvDelayInput : string;
  preset_hdr10plusDelayInput : string;
  preset_showDelays : bool;
}.

(** The component state: the [useState] cells and the [useRef] cells
    ([queueMeta], [fileMeta], [statusRef]). *)
Record State := mkState {
  pathKinds : PathKinds;
  config : ProcessingConfig;
  toolPaths : ToolPaths;
  status : ProcessingStatus;
  steps : list ProcessingStep;
  logs : list LogEntry;
  queue : list QueueFile;
  fileProgress : list FileProgressEntry;
  showDelays : bool;
  dvDelayInput : string;
  hdr10plusDelayInput : string;
  presets : list Preset;
  selectedPresetId : string;
  queueMeta : gmap string Meta;
  fileMeta : gmap string Meta;
  statusRef : ProcessingStatus;
  selectedQueueIds : gset string;
}.

Definition set_pk_hdr (v : PathKind) (s : PathKinds) : PathKinds :=
  mkPathKinds v (pk_hdr10plus s) (pk_dv s) (pk_output s).

Definition set_pk_hdr10plus (v : PathKind) (s : PathKinds) : PathKinds :=
  mkPathKinds (pk_hdr s) v (pk_dv s) (pk_output s).

Definition set_pk_dv (v : PathKind) (s : PathKinds) : PathKinds :=
  mkPathKinds (pk_hdr s) (pk_hdr10plus s) v (pk_output s).

Definition set_pk_output (v : PathKind) (s : PathKinds) : PathKinds :=
  mkPathKinds (pk_hdr s) (pk_hdr10plus s) (pk_dv s) v.

Definition set_hdrPath (v : string) (s : ProcessingConfig) : ProcessingConfig :=
  mkConfig v (dvPath s) (outputPath s) (hdr10plusPath s) (dvDelayMs s) (hdr10plusDelayMs s) (mode s) (parallelTasks s) (keepTempFiles s).

Definition set_dvPath (v : string) (s : ProcessingConfig) : ProcessingConfig :=
  mkConfig (hdrPath s) v (outputPath s) (hdr10plusPath s) (dvDelayMs s) (hdr10plusDelayMs s) (mode s) (parallelTasks s) (keepTempFiles s).

Definition set_outputPath (v : string) (s : ProcessingConfig) : ProcessingConfig :=
  mkConfig (hdrPath s) (dvPath s) v (hdr10plusPath s) (dvDelayMs s) (hdr10plusDelayMs s) (mode s) (parallelTasks s) (keepTempFiles s).

Definition set_hdr10plusPath (v : string) (s : ProcessingConfig) : ProcessingConfig :=
  mkConfig (hdrPath s) (dvPath s) (outputPath s) v (dvDelayMs s) (hdr10plusDelayMs s) (mode s) (parallelTasks s) (keepTempFiles s).

Definition set_dvDelayMs (v : Qc) (s : ProcessingConfig) : ProcessingConfig :=
  mkConfig (hdrPath s) (dvPath s) (outputPath s) (hdr10plusPath s) v (hdr10plusDelayMs s) (mode s) (parallelTasks s) (keepTempFiles s).

Definition set_hdr10plusDelayMs (v : Qc) (s : ProcessingConfig) : ProcessingConfig :=
  mkConfig (hdrPath s) (dvPath s) (outputPath s) (hdr10plusPath s) (dvDelayMs s) v (mode s) (parallelTasks s) (keepTempFiles s).

Definition set_mode (v : ProcessingMode) (s : ProcessingConfig) : ProcessingConfig :=
  mkConfig (hdrPath s) (dvPath s) (outputPath s) (hdr10plusPath s) (dvDelayMs s) (hdr10plusDelayMs s) v (parallelTasks s) (keepTempFiles s).

Definition set_parallelTasks (v : Z) (s : ProcessingConfig) : ProcessingConfig :=
  mkConfig (hdrPath s) (dvPath s) (outputPath s) (hdr10plusPath s) (dvDelayMs s) (hdr10plusDelayMs s) (mode s) v (keepTempFiles s).

Definition set_keepTempFiles (v : bool) (s : ProcessingConfig) : ProcessingConfig :=
  mkConfig (hdrPath s) (dvPath s) (outputPath s) (hdr10plusPath s) (dvDelayMs s) (hdr10plusDelayMs s) (mode s) (parallelTasks s) v.

Definition set_pathKinds (v : PathKinds) (s : State) : State :=
  mkState v (config s) (toolPaths s) (status s) (steps s) (logs s) (queue s) (fileProgress s) (showDelays s) (dvDelayInput s) (hdr10plusDelayInput s) (presets s) (selectedPresetId s) (queueMeta s) (fileMeta s) (statusRef s) (selectedQueueIds s).

Definition set_config (v : ProcessingConfig) (s : State) : State :=
  mkState (pathKinds s) v (toolPaths s) (status s) (steps s) (logs s) (queue s) (fileProgress s) (showDelays s) (dvDelayInput s) (hdr10plusDelayInput s) (presets s) (selectedPresetId s) (queueMeta s) (fileMeta s) (statusRef s) (selectedQueueIds s).

Definition set_toolPaths (v : ToolPaths) (s : State) : State :=
  mkState (pathKinds s) (config s) v (status s) (steps s) (logs s) (queue s) (fileProgress s) (showDelays s) (dvDelayInput s) (hdr10plusDelayInput s) (presets s) (selectedPresetId s) (queueMeta s) (fileMeta s) (statusRef s) (selectedQueueIds s).

Definition set_status (v : ProcessingStatus) (s : State) : State :=
  mkState (pathKinds s) (config s) (toolPaths s) v (steps s) (logs s) (queue s) (fileProgress s) (showDelays s) (dvDelayInput s) (hdr10plusDelayInput s) (presets s) (selectedPresetId s) (queueMeta s) (fileMeta s) (statusRef s) (selectedQueueIds s).

Definition set_steps (v : list ProcessingStep) (s : State) : State :=
  mkState (pathKinds s) (config s) (toolPaths s) (status s) v (logs s) (queue s) (fileProgress s) (showDelays s) (dvDelayInput s) (hdr10plusDelayInput s) (presets s) (selectedPresetId s) (queueMeta s) (fileMeta s) (statusRef s) (selectedQueueIds s).

Definition set_logs (v : list LogEntry) (s : State) : State :=
  mkState (pathKinds s) (config s) (toolPaths s) (status s) (steps s) v (queue s) (fileProgress s) (showDelays s) (dvDelayInput s) (hdr10plusDelayInput s) (presets s) (selectedPresetId s) (queueMeta s) (fileMeta s) (statusRef s) (selectedQueueIds s).

Definition set_queue (v : list QueueFile) (s : State) : State :=
  mkState (pathKinds s) (config s) (toolPaths s) (status s) (steps s) (logs s) v (fileProgress s) (showDelays s) (dvDelayInput s) (hdr10plusDelayInput s) (presets s) (selectedPresetId s) (queueMeta s) (fileMeta s) (statusRef s) (selectedQueueIds s).

Definition set_fileProgress (v : list FileProgressEntry) (s : State) : State :=
  mkState (pathKinds s) (config s) (toolPaths s) (status s) (steps s) (logs s) (queue s) v (showDelays s) (dvDelayInput s) (hdr10plusDelayInput s) (presets s) (selectedPresetId s) (queueMeta s) (fileMeta s) (statusRef s) (selectedQueueIds s).

Definition set_showDelays (v : bool) (s : State) : State :=
  mkState (pathKinds s) (config s) (toolPaths s) (status s) (steps s) (logs s) (queue s) (fileProgress s) v (dvDelayInput s) (hdr10plusDelayInput s) (presets s) (selectedPresetId s) (queueMeta s) (fileMeta s) (statusRef s) (selectedQueueIds s).

Definition set_dvDelayInput (v : string) (s : State) : State :=
  mkState (pathKinds s) (config s) (toolPaths s) (status s) (steps s) (logs s) (queue s) (fileProgress s) (showDelays s) v (hdr10plusDelayInput s) (presets s) (selectedPresetId s) (queueMeta s) (fileMeta s) (statusRef s) (selectedQueueIds s).

Definition set_hdr10plusDelayInput (v : string) (s : State) : State :=
  mkState (pathKinds s) (config s) (toolPaths s) (status s) (steps s) (logs s) (queue s) (fileProgress s) (showDelays s) (dvDelayInput s) v (presets s) (selectedPresetId s) (queueMeta s) (fileMeta s) (statusRef s) (selectedQueueIds s).

Definition set_presets (v : list Preset) (s : State) : State :=
  mkState (pathKinds s) (config s) (toolPaths s) (status s) (steps s) (logs s) (queue s) (fileProgress s) (showDelays s) (dvDelayInput s) (hdr10plusDelayInput s) v (selectedPresetId s) (queueMeta s) (fileMeta s) (statusRef s) (selectedQueueIds s).

Definition set_selectedPresetId (v : string) (s : State) : State :=
  mkState (pathKinds s) (config s) (toolPaths s) (status s) (steps s) (logs s) (queue s) (fileProgress s) (showDelays s) (dvDelayInput s) (hdr10plusDelayInput s) (presets s) v (queueMeta s) (fileMeta s) (statusRef s) (selectedQueueIds s).

Definition set_queueMeta (v : gmap string Meta) (s : State) : State :=
  mkState (pathKinds s) (config s) (toolPaths s) (status s) (steps s) (logs s) (queue s) (fileProgress s) (showDelays s) (dvDelayInput s) (hdr10plusDelayInput s) (presets s) (selectedPresetId s) v (fileMeta s) (statusRef s) (selectedQueueIds s).

Definition set_fileMeta (v : gmap string Meta) (s : State) : State :=
  mkState (pathKinds s) (config s) (toolPaths s) (status s) (steps s) (logs s) (queue s) (fileProgress s) (showDelays s) (dvDelayInput s) (hdr10plusDelayInput s) (presets s) (selectedPresetId s) (queueMeta s) v (statusRef s) (selectedQueueIds s).

Definition set_statusRef (v : ProcessingStatus) (s : State) : State :=
  mkState (pathKinds s) (config s) (toolPaths s) (status s) (steps s) (logs s) (queue s) (fileProgress s) (showDelays s) (dvDelayInput s) (hdr10plusDelayInput s) (presets s) (selectedPresetId s) (queueMeta s) (fileMeta s) v (selectedQueueIds s).

Definition set_selectedQueueIds (v : gset string) (s : State) : State :=
  mkState (pathKinds s) (config s) (toolPaths s) (status s) (steps s) (logs s) (queue s) (fileProgress s) (showDelays s) (dvDelayInput s) (hdr10plusDelayInput s) (presets s) (selectedPresetId s) (queueMeta s) (fileMeta s) (statusRef s) v.

Definition defaultToolPaths : ToolPaths :=
  mkToolPaths "dovi_tool" "mkvmerge" "mkvextract" "ffmpeg" "MediaInfo" "MP4Box"
    "hdr10plus_tool" "DV.HDR".

Definition defaultConfig : ProcessingConfig :=
  mkConfig "" "" "" "" (num 0) (num 0) Single 4 false.

Definition initialState : State :=
  mkState (mkPathKinds KUnknown KUnknown KUnknown KUnknown) defaultConfig
    defaultToolPaths Idle defaultSteps [] [] [] false "" "" [] "" ∅ ∅ Idle ∅.

(** [setConfig(prev => ...)] and friends: a functional update of one cell. *)
Definition update_config (f : ProcessingConfig → ProcessingConfig) (s : State) : State :=
  set_config (f (config s)) s.

Definition update_pathKinds (f : PathKinds → PathKinds) (s : State) : State :=
  set_pathKinds (f (pathKinds s)) s.

(** [addLog(type, message)]; [id] is the value of [crypto.randomUUID()] and
    [now] the time of [new Date()]. *)
Definition addLog (id : string) (now : Z) (type : LogType) (message : string)
  (s : State) : State :=
  set_logs (logs s ++ [mkLog id now type message]) s.

(** *** Effects requested from the host *)

Record ProcessingRequest := mkRequest {
  r_mode : ProcessingMode;
  r_hdrPath : string;
  r_dvPath : string;
  r_outputPath : string;
  r_hdr10plusPath : string;
  r_dvDelayMs : Qc;
  r_hdr10plusDelayMs : Qc;
  r_keepTempFiles : bool;
  r_parallelTasks : Z;
  r_toolPaths : ToolPaths;
  r_queue : list QueueFile;
}.

Inductive Command :=
| StartProcessing (request : ProcessingRequest)
    (* invokeTauri('start_processing', { request }) *)
| CancelProcessing
    (* invokeTauri('cancel_processing') *)
| SimulateProcessing
    (* simulateProcessing(), the host-absent demonstration *)
| Notify (title body : string).
    (* notify(title, body) *)

(** *** Inbound events *)

(** [payload.currentStep || undefined] *)
Definition truthy_step (o : option string) : option string :=
  match o with
  | Some step => if Js.truthy step then Some step else None
  | None => None
  end.

(** [a ?? b] *)
Definition nullish {A} (a b : option A) : option A :=
  match a with Some _ => a | None => b end.

(** The callback of [prev.map] in the 'processing:queue' listener, with the
    [queueMetaRef] map threaded through. *)
Definition queueItemUpdate (payload : QueuePayload) (now : Z)
  (item : QueueFile) (metas : gmap string Meta) : QueueFile * gmap string Meta :=
  if decide (q_id item ≠ qp_id payload) then (item, metas)
  else
    let '(etaSeconds, metas') :=
      match qp_status payload with
      | QProcessing =>
          let meta := default (mkMeta now (num 0) []) (metas !! q_id item) in
          let '(smoothed, meta1) := computeSmoothedEta meta now (qp_progress payload) in
          let eta := match smoothed with
                     | Some n => Some n
                     | None => q_etaSeconds item
                     end in
          let meta2 := mkMeta (m_start meta1) (qp_progress payload) (m_samples meta1) in
          (eta, <[q_id item := meta2]> metas)
      | QCompleted => (Some 0%Z, delete (q_id item) metas)
      | QError | QPending => (q_etaSeconds item, delete (q_id item) metas)
      end in
    (mkQueueFile (q_id item) (q_hdrFile item) (q_dvFile item) (q_outputFile item)
       (q_hdrPath item) (q_dvPath item) (q_outputPath item)
       (qp_status payload) (qp_progress payload)
       (truthy_step (qp_currentStep payload))
       etaSeconds
       (nullish (qp_activeWorkers payload) (q_activeWorkers item))
       (nullish (qp_fileTotal payload) (q_fileTotal item)),
     metas').

Fixpoint mapQueue (payload : QueuePayload) (now : Z)
  (prev : list QueueFile) (metas : gmap string Meta)
  : list QueueFile * gmap string Meta :=
  match prev with
  | [] => ([], metas)
  | item :: rest =>
      let '(item', metas1) := queueItemUpdate payload now item metas in
      let '(rest', metas2) := mapQueue payload now rest metas1 in
      (item' :: rest', metas2)
  end.

(** The 'processing:queue' listener. *)
Definition onQueueEvent (payload : QueuePayload) (now : Z) (s : State) : State :=
  let '(queue', metas') := mapQueue payload now (queue s) (queueMeta s) in
  set_queueMeta metas' (set_queue queue' s).

(** The 'processing:file' listener. *)
Definition onFileEvent (payload : FileProgressPayload) (now : Z) (s : State) : State :=
  let prev := fileProgress s in
  let existing := List.find (λ item, bool_decide (fp_id item = fpp_id payload)) prev in
  let eta0 := match existing with
              | Some entry => fp_etaSeconds entry
              | None => None
              end in
  let meta := default (mkMeta now (num 0) []) (fileMeta s !! fpp_id payload) in
  let '(smoothed, meta1) := computeSmoothedEta meta now (fpp_progress payload) in
  let etaSeconds := match smoothed with
                    | Some n => Some n
                    | None => eta0
                    end in
  let meta2 := mkMeta (m_start meta1) (fpp_progress payload) (m_samples meta1) in
  let nextEntry :=
    mkFileProgress (fpp_id payload) (fpp_queueId payload) (fpp_name payload)
      (fpp_progress payload) etaSeconds in
  let next :=
    match existing with
    | Some _ =>
        map (λ item, if decide (fp_id item = fpp_id payload) then nextEntry else item) prev
    | None => prev ++ [nextEntry]
    end in
  set_fileMeta (<[fpp_id payload := meta2]> (fileMeta s)) (set_fileProgress next s).

(** The 'processing:status' listener: [statusRef] remembers the status of
    the previous event and guards the notification. *)
Definition onStatusEvent (nextStatus : ProcessingStatus) (s : State)
  : State * list Command :=
  let s1 := set_status nextStatus s in
  if decide (statusRef s ≠ nextStatus) then
    let s2 := set_statusRef nextStatus s1 in
    match nextStatus with
    | Completed =>
        (s2, [Notify "Hybrid DV HDR" "Processing queue completed successfully."])
    | Error =>
        (s2, [Notify "Hybrid DV HDR" "Processing failed. Check the console output."])
    | _ => (s2, [])
    end
  else (s1, []).

(** *** Derived values *)

Definition derivedHdrPath (s : State) : string :=
  Js.or_else (hdrPath (config s)) (hdr10plusPath (config s)).

Definition derivedHdrKind (s : State) : PathKind :=
  if Js.truthy (hdrPath (config s)) then pk_hdr (pathKinds s)
  else pk_hdr10plus (pathKinds s).

Definition derivedMode (s : State) : ProcessingMode :=
  if decide (0 < length (queue s))%nat then Batch
  else if decide (derivedHdrKind s = KFolder ∧ pk_dv (pathKinds s) = KFolder) then Batch
  else Single.

(** *** Path assignment *)

Inductive Target := THdr | TDv | TOutput | THdr10plus.

(** [setPathKinds(prev => ({ ...prev, [target]: kind }))] *)
Definition setKind (target : Target) (kind : PathKind) (pk : PathKinds) : PathKinds :=
  match target with
  | THdr => set_pk_hdr kind pk
  | TDv => set_pk_dv kind pk
  | TOutput => set_pk_output kind pk
  | THdr10plus => set_pk_hdr10plus kind pk
  end.

(** The [setConfig] updater shared by the inputs and the browse handlers:
    the HDR10+ slot and the HDR slot clear each other. *)
Definition assignPath (target : Target) (v : string) (prev : ProcessingConfig)
  : ProcessingConfig :=
  match target with
  | THdr10plus => set_hdrPath "" (set_hdr10plusPath v prev)
  | THdr => set_hdrPath v (set_hdr10plusPath "" prev)
  | TDv => set_dvPath v prev
  | TOutput => set_outputPath v prev
  end.

(** The [onChange] handler of the four [FileInput]s (typing, the clear
    button and a drop on the input all call it). *)
Definition onInputChange (target : Target) (v : string) (s : State) : State :=
  update_pathKinds (setKind target (classifyInput v))
    (update_config (assignPath target v) s).

(** [browseFile(target)]; [tauri] is [isTauri()], [answer] the result of
    [window.prompt] or of the native dialog ([None] when cancelled). *)
Definition browseFile (tauri : bool) (target : Target) (answer : option string)
  (s : State) : State :=
  if negb tauri then
    match answer with
    | Some manual =>
        if Js.truthy manual then
          update_pathKinds (setKind target KFile)
            (update_config (assignPath target manual) s)
        else s
    | None => s
    end
  else
    match target, answer with
    | TOutput, Some selected =>
        update_pathKinds (set_pk_output KFile)
          (update_config (set_outputPath selected) s)
    | _, Some selected =>
        update_pathKinds (setKind target KFile)
          (update_config (assignPath target selected) s)
    | _, None => s
    end.

(** [browseFolder(target)] *)
Definition browseFolder (tauri : bool) (target : Target) (answer : option string)
  (s : State) : State :=
  if negb tauri then
    match answer with
    | Some manual =>
        if Js.truthy manual then
          update_pathKinds (setKind target KFolder)
            (update_config (assignPath target manual) s)
        else s
    | None => s
    end
  else
    match answer with
    | Some selected =>
        update_pathKinds (setKind target KFolder)
          (update_config (assignPath target selected) s)
    | None => s
    end.

Definition kindOfDrop (isFolder : bool) : PathKind :=
  if isFolder then KFolder else KFile.

(** [handleDropAssign(path, isFolder, name)] *)
Definition handleDropAssign (path : string) (isFolder : bool) (name : option string)
  (s : State) : State :=
  let label :=
    Js.or_else (match name with Some n => Js.toLowerCase n | None => "" end)
               (Js.toLowerCase path) in
  let isHdr10plus :=
    Js.includes label "hdr10" || Js.includes label "hdr10+"
    || Js.includes label "hdr10plus" in
  let isDv :=
    Js.includes label "dv" || Js.includes label "dovi" || Js.includes label "dolby" in
  let isHdr := Js.includes label "hdr" in
  if isHdr10plus then
    update_pathKinds (set_pk_hdr10plus (kindOfDrop isFolder))
      (update_config (λ prev, set_hdrPath "" (set_hdr10plusPath path prev)) s)
  else if isDv || (negb (Js.truthy (dvPath (config s))) && negb isHdr) then
    update_pathKinds (set_pk_dv (kindOfDrop isFolder))
      (update_config (set_dvPath path) s)
  else if isHdr || negb (Js.truthy (hdrPath (config s))) then
    update_pathKinds (set_pk_hdr (kindOfDrop isFolder))
      (update_config (λ prev, set_hdr10plusPath "" (set_hdrPath path prev)) s)
  else s.

(** *** Presets *)

(** [applyPreset(presetId)] *)
Definition applyPreset (presetId : string) (s : State) : State :=
  match List.find (λ item, bool_decide (preset_id item = presetId)) (presets s) with
  | None => s
  | Some preset =>
      set_pathKinds
        (mkPathKinds (inferPathKind (hdrPath (preset_config preset)))
                     (inferPathKind (hdr10plusPath (preset_config preset)))
                     (inferPathKind (dvPath (preset_config preset)))
                     (inferPathKind (outputPath (preset_config preset))))
        (set_showDelays (preset_showDelays preset)
           (set_hdr10plusDelayInput (preset_hdr10plusDelayInput preset)
              (set_dvDelayInput (preset_dvDelayInput preset)
                 (set_toolPaths (preset_toolPaths preset)
                    (set_config (preset_config preset) s)))))
  end.

(** [savePreset()]; [name] is the answer of [window.prompt], [id] the fresh
    identifier. *)
Definition savePreset (name : option string) (id : string) (s : State) : State :=
  match name with
  | None => s
  | Some name =>
      if negb (Js.truthy name) then s
      else
        let newPreset :=
          mkPreset id name (config s) (toolPaths s) (dvDelayInput s)
            (hdr10plusDelayInput s) (showDelays s) in
        set_selectedPresetId id (set_presets (presets s ++ [newPreset]) s)
  end.

(** [handlePresetChange(value)] *)
Definition handlePresetChange (value : string) (name : option string) (id : string)
  (s : State) : State :=
  if String.eqb value "__save__" then savePreset name id s
  else applyPreset value (set_selectedPresetId value s).

(** *** Queue management *)

(** [path.split('\\').filter(Boolean).pop() || path] *)
Definition baseLabel (path : string) : string :=
  match Js.pop (Js.filterBoolean (Js.split Js.backslash path)) with
  | Some label => Js.or_else label path
  | None => path
  end.

(** [`${hdrLabel.replace('.mkv', '')}.hybrid.mkv`] *)
Definition defaultOutputName (hdrLabel : string) : string :=
  Js.replace hdrLabel ".mkv" "" +:+ ".hybrid.mkv".

(** [addToQueue()]; [id] and [logId] are the two fresh identifiers drawn by
    [crypto.randomUUID()], [now] the time of the log line. *)
Definition addToQueue (id logId : string) (now : Z) (s : State) : State :=
  if negb (Js.truthy (derivedHdrPath s)) || negb (Js.truthy (dvPath (config s))) then s
  else
    let isBatch := bool_decide (derivedMode s = Batch) in
    let hdrLabel := baseLabel (derivedHdrPath s) in
    let dvLabel := baseLabel (dvPath (config s)) in
    let outputFile :=
      if isBatch
      then Js.or_else (outputPath (config s)) (defaultOutput (toolPaths s))
      else Js.or_else (outputPath (config s)) (defaultOutputName hdrLabel) in
    let newFile :=
      mkQueueFile id hdrLabel dvLabel outputFile (derivedHdrPath s) (dvPath (config s))
        (if isBatch then Js.or_else (outputPath (config s)) "" else outputFile)
        QPending (num 0) None None None None in
    addLog logId now LInfo ("Added to queue: " +:+ q_outputFile newFile)
      (update_config
         (λ prev, set_outputPath "" (set_dvPath "" (set_hdr10plusPath "" (set_hdrPath "" prev))))
         (set_selectedQueueIds ({[ q_id newFile ]} ∪ selectedQueueIds s)
            (set_queue (queue s ++ [newFile]) s))).

(** [findIndex] by identifier. *)
Fixpoint findIndex (id : string) (l : list QueueFile) : option nat :=
  match l with
  | [] => None
  | item :: rest =>
      if decide (q_id item = id) then Some 0%nat else S <$> findIndex id rest
  end.

(** [handleReorderQueue(sourceId, targetId)]: the two [splice] calls. *)
Definition handleReorderQueue (sourceId targetId : string) (s : State) : State :=
  match findIndex sourceId (queue s), findIndex targetId (queue s) with
  | Some sourceIndex, Some targetIndex =>
      match queue s !! sourceIndex with
      | Some moved =>
          let next := take sourceIndex (queue s) ++ drop (S sourceIndex) (queue s) in
          set_queue (take targetIndex next ++ moved :: drop targetIndex next) s
      | None => s
      end
  | _, _ => s
  end.

(** [onToggle(id)] and [onToggleAll()] of the queue view. *)
Definition onToggle (id : string) (s : State) : State :=
  if decide (id ∈ selectedQueueIds s)
  then set_selectedQueueIds (selectedQueueIds s ∖ {[ id ]}) s
  else set_selectedQueueIds ({[ id ]} ∪ selectedQueueIds s) s.

Definition onToggleAll (s : State) : State :=
  if decide (size (selectedQueueIds s) = length (queue s))
  then set_selectedQueueIds ∅ s
  else set_selectedQueueIds (list_to_set (map q_id (queue s))) s.

(** *** Submission *)

(** [handleStart()]; [tauri] is [isTauri()], [dvDelay] and [hdr10plusDelay]
    are the values of [parseDelay] on the two delay inputs, [logId] and [now]
    feed the log line of a rejected submission. The host-absent simulation
    is requested as a command and not unfolded here. *)
Definition handleStart (tauri : bool) (dvDelay hdr10plusDelay : Qc)
  (logId : string) (now : Z) (s : State) : State * list Command :=
  if bool_decide (derivedMode s = Single)
     && (negb (Js.truthy (derivedHdrPath s)) || negb (Js.truthy (dvPath (config s))))
  then (addLog logId now LError "Please specify HDR/HDR10+ and DV source paths" s, [])
  else if bool_decide (derivedMode s = Batch) && bool_decide (length (queue s) = 0%nat)
  then (addLog logId now LError "Please add files to the queue first" s, [])
  else if negb tauri then (s, [SimulateProcessing])
  else
    let queueToProcess :=
      match derivedMode s with
      | Batch =>
          if decide (0 < size (selectedQueueIds s))%nat
          then filter (λ item, q_id item ∈ selectedQueueIds s) (queue s)
          else queue s
      | Single => []
      end in
    let request :=
      mkRequest (derivedMode s) (derivedHdrPath s) (dvPath (config s))
        (outputPath (config s)) (hdr10plusPath (config s)) dvDelay hdr10plusDelay
        (keepTempFiles (config s)) (parallelTasks (config s)) (toolPaths s)
        queueToProcess in
    (set_fileMeta ∅ (set_fileProgress [] (set_status Processing (set_steps defaultSteps s))),
     [StartProcessing request]).

(** The [catch] branch of [handleStart]: the host rejected the command. *)
Definition handleStartRejected (message logId : string) (now : Z) (s : State) : State :=
  set_status Error (addLog logId now LError message s).

(** [handleStop()] *)
Definition handleStop (tauri : bool) (logId : string) (now : Z) (s : State)
  : State * list Command :=
  if tauri then (s, [CancelProcessing])
  else
    let resetItem (f : QueueFile) :=
      mkQueueFile (q_id f) (q_hdrFile f) (q_dvFile f) (q_outputFile f) (q_hdrPath f)
        (q_dvPath f) (q_outputPath f) QPending (num 0) (q_currentStep f)
        (q_etaSeconds f) (q_activeWorkers f) (q_fileTotal f) in
    (set_fileMeta ∅
       (set_fileProgress []
          (addLog logId now LWarning "Processing cancelled by user"
             (set_queue (map resetItem (queue s))
                (set_steps defaultSteps (set_status Idle s))))),
     []).

(** [handleClear()] *)
Definition handleClear (s : State) : State :=
  set_selectedQueueIds ∅
    (set_fileMeta ∅
       (set_queueMeta ∅
          (set_fileProgress []
             (set_queue [] (set_status Idle (set_steps defaultSteps (set_logs [] s))))))).

(** *** The view as a transition system *)

Inductive Event :=
| EvInput (target : Target) (v : string)
| EvBrowseFile (tauri : bool) (target : Target) (answer : option string)
| EvBrowseFolder (tauri : bool) (target : Target) (answer : option string)
| EvDrop (path : string) (isFolder : bool) (name : option string)
| EvAddToQueue (id logId : string) (now : Z)
| EvSavePreset (name : option string) (id : string)
| EvPresetChange (value : string) (name : option string) (id : string)
| EvParallelTasks (v : Z)
| EvKeepTempFiles (v : bool)
| EvToolPaths (v : ToolPaths)
| EvDelayInputs (showDelays : bool) (dv hdr10plus : string)
| EvStart (tauri : bool) (dvDelay hdr10plusDelay : Qc) (logId : string) (now : Z)
| EvStartRejected (message logId : string) (now : Z)
| EvStop (tauri : bool) (logId : string) (now : Z)
| EvClear
| EvReorder (sourceId targetId : string)
| EvToggle (id : string)
| EvToggleAll
| EvLog (id : string) (now : Z) (type : LogType) (message : string)
| EvQueue (payload : QueuePayload) (now : Z)
| EvFile (payload : FileProgressPayload) (now : Z)
| EvStatus (nextStatus : ProcessingStatus)
| EvRestart (storedParallelTasks : Z) (storedKeepTempFiles : bool)
    (storedToolPaths : ToolPaths).

(** A restart of the view: every cell is initialised again and the load
    effect reads back the storage entries that the save effects wrote. The
    presets entry holds the presets of the state left behind; the values
    read for the configuration and the tool paths are left open. *)
Definition restart (storedParallelTasks : Z) (storedKeepTempFiles : bool)
  (storedToolPaths : ToolPaths) (s : State) : State :=
  set_presets (presets s)
    (set_toolPaths storedToolPaths
       (set_config
          (set_keepTempFiles storedKeepTempFiles
             (set_parallelTasks storedParallelTasks defaultConfig))
          initialState)).

Definition step (e : Event) (s : State) : State * list Command :=
  match e with
  | EvInput target v => (onInputChange target v s, [])
  | EvBrowseFile tauri target answer => (browseFile tauri target answer s, [])
  | EvBrowseFolder tauri target answer => (browseFolder tauri target answer s, [])
  | EvDrop path isFolder name => (handleDropAssign path isFolder name s, [])
  | EvAddToQueue id logId now => (addToQueue id logId now s, [])
  | EvSavePreset name id => (savePreset name id s, [])
  | EvPresetChange value name id => (handlePresetChange value name id s, [])
  | EvParallelTasks v => (update_config (set_parallelTasks v) s, [])
  | EvKeepTempFiles v => (update_config (set_keepTempFiles v) s, [])
  | EvToolPaths v => (set_toolPaths v s, [])
  | EvDelayInputs sd dv h =>
      (set_hdr10plusDelayInput h (set_dvDelayInput dv (set_showDelays sd s)), [])
  | EvStart tauri dvDelay hdr10plusDelay logId now =>
      handleStart tauri dvDelay hdr10plusDelay logId now s
  | EvStartRejected message logId now => (handleStartRejected message logId now s, [])
  | EvStop tauri logId now => handleStop tauri logId now s
  | EvClear => (handleClear s, [])
  | EvReorder sourceId targetId => (handleReorderQueue sourceId targetId s, [])
  | EvToggle id => (onToggle id s, [])
  | EvToggleAll => (onToggleAll s, [])
  | EvLog id now type message => (addLog id now type message s, [])
  | EvQueue payload now => (onQueueEvent payload now s, [])
  | EvFile payload now => (onFileEvent payload now s, [])
  | EvStatus nextStatus => onStatusEvent nextStatus s
  | EvRestart pt kt tp => (restart pt kt tp s, [])
  end.

(** The states the view can be in: those reached from the initial state by
    a finite sequence of events. *)
Inductive reachable : State → Prop :=
| reachable_init : reachable initialState
| reachable_step e s : reachable s → reachable (step e s).1.

(** Running a sequence of events, collecting the commands of each. *)
Fixpoint run (es : list Event) (s : State) : State * list (list Command) :=
  match es with
  | [] => (s, [])
  | e :: rest =>
      let '(s1, cmds) := step e s in
      let '(s2, out) := run rest s1 in
      (s2, cmds :: out)
  end.

(** *** What the buttons allow *)

(** The [disabled] attribute of the Start button. *)
Definition startDisabled (s : State) : bool :=
  match derivedMode s with
  | Single =>
      negb (Js.truthy (derivedHdrPath s)) || negb (Js.truthy (dvPath (config s)))
  | Batch =>
      bool_decide (length (queue s) = 0%nat)
      || bool_decide (size (selectedQueueIds s) = 0%nat)
  end.

(** The Add to Queue button is rendered in batch mode only, and disabled
    while processing or while a source path is missing. *)
Definition addToQueueAvailable (s : State) : bool :=
  bool_decide (derivedMode s = Batch)
  && negb (bool_decide (status s = Processing)
           || negb (Js.truthy (derivedHdrPath s))
           || negb (Js.truthy (dvPath (config s)))).

(** The 'processing:step' listener. *)
Definition onStepEvent (stepId : Z) (stepStatus : StepStatus) (progress : Qc)
  (s : State) : State :=
  set_steps
    (map (λ step,
            if decide (step_id step = stepId)
            then mkStep (step_id step) (step_name step) (step_description step)
                   stepStatus progress
            else step)
         (steps s))
    s.

End V1.

(** * The revision that derives the mode from the path kinds only *)

Module V2.

Record PathKinds := mkPathKinds {
  pk_hdr : PathKind;
  pk_dv : PathKind;
  pk_output : PathKind;
}.

Record ProcessingConfig := mkConfig {
  hdrPath : string;
  dvPath : string;
  outputPath : string;
  mode : ProcessingMode;
  parallelTasks : Z;
  keepTempFiles : bool;
}.

Record ToolPaths := mkToolPaths {
  doviTool : string;
  mkvmerge : string;
  mkvextract : string;
  ffmpeg : string;
  defaultOutput : string;
}.

(** The per-item record of the elapsed-time extrapolation. *)
Record Meta := mkMeta { m_start : Z; m_lastProgress : Qc }.

Record State := mkState {
  pathKinds : PathKinds;
  config : ProcessingConfig;
  toolPaths : ToolPaths;
  status : ProcessingStatus;
  steps : list ProcessingStep;
  logs : list LogEntry;
  queue : list QueueFile;
  fileProgress : list FileProgressEntry;
  queueMeta : gmap string Meta;
  fileMeta : gmap string Meta;
  selectedQueueIds : gset string;
}.

Definition set_pathKinds (v : PathKinds) (s : State) : State :=
  mkState v (config s) (toolPaths s) (status s) (steps s) (logs s) (queue s) (fileProgress s) (queueMeta s) (fileMeta s) (selectedQueueIds s).

Definition set_config (v : ProcessingConfig) (s : State) : State :=
  mkState (pathKinds s) v (toolPaths s) (status s) (steps s) (logs s) (queue s) (fileProgress s) (queueMeta s) (fileMeta s) (selectedQueueIds s).

Definition set_toolPaths (v : ToolPaths) (s : State) : State :=
  mkState (pathKinds s) (config s) v (status s) (steps s) (logs s) (queue s) (fileProgress s) (queueMeta s) (fileMeta s) (selectedQueueIds s).

Definition set_status (v : ProcessingStatus) (s : State) : State :=
  mkState (pathKinds s) (config s) (toolPaths s) v (steps s) (logs s) (queue s) (fileProgress s) (queueMeta s) (fileMeta s) (selectedQueueIds s).

Definition set_steps (v : list ProcessingStep) (s : State) : State :=
  mkState (pathKinds s) (config s) (toolPaths s) (status s) v (logs s) (queue s) (fileProgress s) (queueMeta s) (fileMeta s) (selectedQueueIds s).

Definition set_logs (v : list LogEntry) (s : State) : State :=
  mkState (pathKinds s) (config s) (toolPaths s) (status s) (steps s) v (queue s) (fileProgress s) (queueMeta s) (fileMeta s) (selectedQueueIds s).

Definition set_queue (v : list QueueFile) (s : State) : State :=
  mkState (pathKinds s) (config s) (toolPaths s) (status s) (steps s) (logs s) v (fileProgress s) (queueMeta s) (fileMeta s) (selectedQueueIds s).

Definition set_fileProgress (v : list FileProgressEntry) (s : State) : State :=
  mkState (pathKinds s) (config s) (toolPaths s) (status s) (steps s) (logs s) (queue s) v (queueMeta s) (fileMeta s) (selectedQueueIds s).

Definition set_queueMeta (v : gmap string Meta) (s : State) : State :=
  mkState (pathKinds s) (config s) (toolPaths s) (status s) (steps s) (logs s) (queue s) (fileProgress s) v (fileMeta s) (selectedQueueIds s).

Definition set_fileMeta (v : gmap string Meta) (s : State) : State :=
  mkState (pathKinds s) (config s) (toolPaths s) (status s) (steps s) (logs s) (queue s) (fileProgress s) (queueMeta s) v (selectedQueueIds s).

Definition set_selectedQueueIds (v : gset string) (s : State) : State :=
  mkState (pathKinds s) (config s) (toolPaths s) (status s) (steps s) (logs s) (queue s) (fileProgress s) (queueMeta s) (fileMeta s) v.

Definition defaultToolPaths : ToolPaths :=
  mkToolPaths "dovi_tool" "mkvmerge" "mkvextract" "ffmpeg" "DV.HDR".

Definition initialState : State :=
  mkState (mkPathKinds KUnknown KUnknown KUnknown)
    (mkConfig "" "" "" Single 4 false) defaultToolPaths Idle defaultSteps
    [] [] [] ∅ ∅ ∅.

Definition addLog (id : string) (now : Z) (type : LogType) (message : string)
  (s : State) : State :=
  set_logs (logs s ++ [mkLog id now type message]) s.

Definition derivedMode (s : State) : ProcessingMode :=
  if decide (pk_hdr (pathKinds s) = KFolder ∧ pk_dv (pathKinds s) = KFolder)
  then Batch else Single.

Record ProcessingRequest := mkRequest {
  r_mode : ProcessingMode;
  r_hdrPath : string;
  r_dvPath : string;
  r_outputPath : string;
  r_keepTempFiles : bool;
  r_parallelTasks : Z;
  r_toolPaths : ToolPaths;
  r_queue : list QueueFile;
}.

Inductive Command :=
| StartProcessing (request : ProcessingRequest)
| SimulateProcessing.

(** [handleStart()] with the selection check. *)
Definition handleStart (tauri : bool) (logId : string) (now : Z) (s : State)
  : State * list Command :=
  if bool_decide (derivedMode s = Single)
     && (negb (Js.truthy (hdrPath (config s))) || negb (Js.truthy (dvPath (config s))))
  then (addLog logId now LError "Please specify both HDR and DV source paths" s, [])
  else if bool_decide (derivedMode s = Batch) && bool_decide (length (queue s) = 0%nat)
  then (addLog logId now LError "Please add files to the queue first" s, [])
  else if bool_decide (derivedMode s = Batch)
          && bool_decide (size (selectedQueueIds s) = 0%nat)
  then (addLog logId now LError "Please select at least one queue item" s, [])
  else if negb tauri then (s, [SimulateProcessing])
  else
    let queueToProcess :=
      match derivedMode s with
      | Batch => filter (λ item, q_id item ∈ selectedQueueIds s) (queue s)
      | Single => []
      end in
    let request :=
      mkRequest (derivedMode s) (hdrPath (config s)) (dvPath (config s))
        (outputPath (config s)) (keepTempFiles (config s)) (parallelTasks (config s))
        (toolPaths s) queueToProcess in
    (set_fileMeta ∅ (set_fileProgress [] (set_status Processing (set_steps defaultSteps s))),
     [StartProcessing request]).

(** The [disabled] attribute of the Start button ([!canStart] in the revision
    with lazy initialisers). *)
Definition startDisabled (s : State) : bool :=
  match derivedMode s with
  | Single =>
      negb (Js.truthy (hdrPath (config s))) || negb (Js.truthy (dvPath (config s)))
  | Batch =>
      bool_decide (length (queue s) = 0%nat)
      || bool_decide (size (selectedQueueIds s) = 0%nat)
  end.

(** The callback of [prev.map] in the 'processing:queue' listener of this
    revision: the ETA is extrapolated from the time elapsed since the first
    'processing' event of the item. [startedAt] is the reading of [Date.now()]
    that starts the clock of an item not yet tracked, [now] the reading that
    measures the elapsed time. *)
Definition queueItemUpdate (payload : QueuePayload) (startedAt now : Z)
  (item : QueueFile) (metas : gmap string Meta) : QueueFile * gmap string Meta :=
  if decide (q_id item ≠ qp_id payload) then (item, metas)
  else
    let '(etaSeconds, metas') :=
      match qp_status payload with
      | QProcessing =>
          let meta := default (mkMeta startedAt (num 0)) (metas !! q_id item) in
          if decide (0 < qp_progress payload)%Qc then
            let elapsed := (num (now - m_start meta) / num 1000)%Qc in
            (Some (Math_round
                     (elapsed / qp_progress payload
                      * (num 100 - qp_progress payload))%Qc),
             <[q_id item := mkMeta (m_start meta) (qp_progress payload)]> metas)
          else (q_etaSeconds item, <[q_id item := meta]> metas)
      | QCompleted => (Some 0%Z, delete (q_id item) metas)
      | QError | QPending => (q_etaSeconds item, delete (q_id item) metas)
      end in
    (mkQueueFile (q_id item) (q_hdrFile item) (q_dvFile item) (q_outputFile item)
       (q_hdrPath item) (q_dvPath item) (q_outputPath item)
       (qp_status payload) (qp_progress payload)
       (V1.truthy_step (qp_currentStep payload))
       etaSeconds
       (V1.nullish (qp_activeWorkers payload) (q_activeWorkers item))
       (V1.nullish (qp_fileTotal payload) (q_fileTotal item)),
     metas').

End V2.

(** * Loading the persisted settings *)

Module Storage.

(** The values [JSON.parse] can return. *)
#[warnings="-register-all"]
Inductive json :=
| JNull
| JBool (b : bool)
| JNum (n : Qc)
| JStr (s : string)
| JArr (items : list json)
| JObj (props : list (string * json)).

(** Code that returns or throws. *)
Inductive outcome (A : Type) :=
| Returns (a : A)
| Throws (error : string).

Arguments Returns {A} a.
Arguments Throws {A} error.

Definition bind {A B} (m : outcome A) (k : A → outcome B) : outcome B :=
  match m with
  | Returns a => k a
  | Throws e => Throws e
  end.

(** [try { body } catch { handler }] *)
Definition try_catch {A} (body : outcome A) (handler : string → outcome A) : outcome A :=
  match body with
  | Returns a => Returns a
  | Throws e => handler e
  end.

Fixpoint chars (s : string) : list json :=
  match s with
  | EmptyString => []
  | String c s' => JStr (Js.chr c) :: chars s'
  end.

Definition indexed (items : list json) : list (string * json) :=
  imap (λ i v, (pretty i, v)) items.

(** The own enumerable properties copied by an object spread [{ ...v }]:
    the members of an object (a repeated key keeps its last value), the
    indices of an array or of a string, nothing for the other values. *)
Definition spread (v : json) : gmap string json :=
  match v with
  | JObj props => list_to_map (reverse props)
  | JArr items => list_to_map (indexed items)
  | JStr s => list_to_map (indexed (chars s))
  | JNull | JBool _ | JNum _ => ∅
  end.

(** [v.key] for a key that no prototype defines: a [TypeError] on [null],
    the own property or [undefined] otherwise. *)
Definition getProp (v : json) (key : string) : outcome (option json) :=
  match v with
  | JNull => Throws "TypeError"
  | _ => Returns (spread v !! key)
  end.

(** [a ?? b]: [b] replaces [undefined] and [null]. *)
Definition nullish (a : option json) (b : json) : json :=
  match a with
  | None | Some JNull => b
  | Some v => v
  end.

(** [if (saved)] on the result of [localStorage.getItem]. *)
Definition present (saved : option string) : option string :=
  match saved with
  | Some text => if Js.truthy text then Some text else None
  | None => None
  end.

Definition modeName (m : ProcessingMode) : string :=
  match m with Single => "single" | Batch => "batch" end.

(** The state objects behind the typed records. *)
Definition configObjV1 (c : V1.ProcessingConfig) : gmap string json :=
  list_to_map
    [ ("hdrPath", JStr (V1.hdrPath c)); ("dvPath", JStr (V1.dvPath c));
      ("outputPath", JStr (V1.outputPath c));
      ("hdr10plusPath", JStr (V1.hdr10plusPath c));
      ("dvDelayMs", JNum (V1.dvDelayMs c));
      ("hdr10plusDelayMs", JNum (V1.hdr10plusDelayMs c));
      ("mode", JStr (modeName (V1.mode c)));
      ("parallelTasks", JNum (num (V1.parallelTasks c)));
      ("keepTempFiles", JBool (V1.keepTempFiles c)) ].

Definition toolPathsObjV1 (t : V1.ToolPaths) : gmap string json :=
  list_to_map
    [ ("doviTool", JStr (V1.doviTool t)); ("mkvmerge", JStr (V1.mkvmerge t));
      ("mkvextract", JStr (V1.mkvextract t)); ("ffmpeg", JStr (V1.ffmpeg t));
      ("mediainfo", JStr (V1.mediainfo t)); ("mp4box", JStr (V1.mp4box t));
      ("hdr10plusTool", JStr (V1.hdr10plusTool t));
      ("defaultOutput", JStr (V1.defaultOutput t)) ].

Section Loading.

(** [JSON.parse]: [None] when it throws a [SyntaxError]. *)
Variable JSON_parse : string → option json.

Definition parse (text : string) : outcome json :=
  match JSON_parse text with
  | Some v => Returns v
  | None => Throws "SyntaxError"
  end.

(** *** The load effect of the revision with presets *)

(** The updater handed to [setConfig]; it runs after the effect returned. *)
Definition loadedConfigUpdater (parsed : json) (prev : gmap string json)
  : outcome (gmap string json) :=
  bind (getProp parsed "parallelTasks") (λ pt,
  bind (getProp parsed "keepTempFiles") (λ kt,
  Returns (<["keepTempFiles" := nullish kt (JBool false)]>
             (<["parallelTasks" := nullish pt (JNum (num 4))]> prev)))).

Definition loadConfigV1 (savedConfig : option string) (prev : gmap string json)
  : outcome (gmap string json) :=
  match present savedConfig with
  | None => Returns prev
  | Some text =>
      match try_catch (bind (parse text) (λ parsed, Returns (Some parsed)))
                      (λ _, Returns None) with
      | Returns (Some parsed) => loadedConfigUpdater parsed prev
      | Returns None => Returns prev
      | Throws e => Throws e
      end
  end.

Definition loadToolsV1 (savedTools : option string) (prev : gmap string json)
  : outcome (gmap string json) :=
  match present savedTools with
  | None => Returns prev
  | Some text =>
      try_catch
        (bind (parse text) (λ parsed,
           Returns (spread parsed ∪ toolPathsObjV1 V1.defaultToolPaths)))
        (λ _, Returns prev)
  end.

Definition loadPresetsV1 (savedPresets : option string) (prev : list json)
  : outcome (list json) :=
  match present savedPresets with
  | None => Returns prev
  | Some text =>
      try_catch
        (bind (parse text) (λ parsed,
           match parsed with
           | JArr items => Returns items
           | _ => Returns prev
           end))
        (λ _, Returns prev)
  end.

Record Loaded := mkLoaded {
  l_config : gmap string json;
  l_toolPaths : gmap string json;
  l_presets : list json;
}.

(** The mount effect as a whole, from the initial cells. *)
Definition loadSettingsV1 (savedConfig savedTools savedPresets : option string)
  : outcome Loaded :=
  bind (loadConfigV1 savedConfig (configObjV1 V1.defaultConfig)) (λ c,
  bind (loadToolsV1 savedTools (toolPathsObjV1 V1.defaultToolPaths)) (λ t,
  bind (loadPresetsV1 savedPresets []) (λ p,
  Returns (mkLoaded c t p)))).

(** *** The lazy initialisers of the revision with debounced saving *)

Definition defaultConfigV3 : gmap string json :=
  list_to_map
    [ ("hdrPath", JStr ""); ("dvPath", JStr ""); ("outputPath", JStr "");
      ("mode", JStr "single"); ("parallelTasks", JNum (num 8));
      ("keepTempFiles", JBool false) ].

Definition binPath (exe : string) : string :=
  "bin" +:+ Js.chr Js.backslash +:+ exe.

Definition defaultToolPathsV3 : gmap string json :=
  list_to_map
    [ ("doviTool", JStr (binPath "dovi_tool.exe"));
      ("mkvmerge", JStr (binPath "mkvmerge.exe"));
      ("mkvextract", JStr (binPath "mkvextract.exe"));
      ("ffmpeg", JStr (binPath "ffmpeg.exe"));
      ("defaultOutput", JStr "DV.HDR") ].

(** [useState(() => ...)] for a cell with the given defaults; [hasWindow] is
    [typeof window !== 'undefined'], [getItem] the outcome of
    [window.localStorage.getItem(key)]. *)
Definition lazyInit (defaults : gmap string json) (hasWindow : bool)
  (getItem : outcome (option string)) : outcome (gmap string json) :=
  if negb hasWindow then Returns defaults
  else
    try_catch
      (bind getItem (λ stored,
         match present stored with
         | None => Returns defaults
         | Some text =>
             bind (parse text) (λ parsed, Returns (spread parsed ∪ defaults))
         end))
      (λ _, Returns defaults).

Definition initConfigV3 := lazyInit defaultConfigV3.
Definition initToolPathsV3 := lazyInit defaultToolPathsV3.

End Loading.

End Storage.

(** * Vocabulary of the properties *)

(** The commands of one event that are notifications. *)
Definition notifications (cmds : list V1.Command) : list V1.Command :=
  List.filter (λ c, match c with V1.Notify _ _ => true | _ => false end) cmds.

(** The commands issued by the 'processing:status' listener along a sequence
    of events, one list per event. *)
Definition statusCommands (statuses : list ProcessingStatus) (s : V1.State)
  : list (list V1.Command) :=
  (V1.run (map V1.EvStatus statuses) s).2.

(** The status before the [i]-th event of a sequence: the status remembered
    at the start for the first event, the status of the event before
    otherwise. *)
Definition previousStatus (start : ProcessingStatus)
  (statuses : list ProcessingStatus) (i : nat) : ProcessingStatus :=
  match i with
  | O => start
  | S j => default start (statuses !! j)
  end.

(** A transition into 'completed' or 'error' from a different status. *)
Definition entersTerminal (prev next : ProcessingStatus) : bool :=
  bool_decide (next ≠ prev)
  && (bool_decide (next = Completed) || bool_decide (next = Error)).

(** At most one of the HDR path and the HDR10+ path is non-empty. *)
Definition exclusive (c : V1.ProcessingConfig) : Prop :=
  V1.hdrPath c = "" ∨ V1.hdr10plusPath c = "".

(** The invariant carried along the transitions: the configuration and the
    configuration snapshot of every preset are exclusive. *)
Definition exclusiveState (s : V1.State) : Prop :=
  exclusive (V1.config s)
  ∧ Forall (λ preset, exclusive (V1.preset_config preset)) (V1.presets s).


(** The mean of a non-empty list of rates. *)
Definition averageRate (rates : list Qc) : Qc :=
  (sum_rates rates / num (Z.of_nat (length rates)))%Qc.


(** The label the drop heuristic inspects:
    [name?.toLowerCase() || path.toLowerCase()]. *)
Definition dropLabel (path : string) (name : option string) : string :=
  Js.or_else (match name with Some n => Js.toLowerCase n | None => "" end)
             (Js.toLowerCase path).

(** * The queue view ([FileQueue]) *)

Module View.

(** [files.filter(f => f.status === st).length] *)
Definition countStatus (st : QueueStatus) (files : list QueueFile) : nat :=
  length (List.filter (λ f, bool_decide (q_status f = st)) files).

Definition completedCount := countStatus QCompleted.
Definition processingCount := countStatus QProcessing.
Definition pendingCount := countStatus QPending.
Definition errorCount := countStatus QError.

(** [selectedIds.size > 0 && selectedIds.size === files.length]: the button
    reads 'Unselect All' when it holds and 'Select All' otherwise. *)
Definition allSelected (selectedIds : gset string) (files : list QueueFile) : bool :=
  bool_decide (0 < size selectedIds)%nat
  && bool_decide (size selectedIds = length files).

(** [formatEta(seconds)] on the whole seconds that [Math.round] produces;
    [None] is [null]. *)
Definition formatEta (seconds : option Z) : option string :=
  match seconds with
  | None => None
  | Some sec =>
      if bool_decide (sec = 0)%Z || bool_decide (sec ≤ 0)%Z then None
      else
        let mins := (sec / 60)%Z in
        let secs := (sec mod 60)%Z in
        if bool_decide (mins ≤ 0)%Z then Some (pretty secs +:+ "s")
        else Some (pretty mins +:+ "m " +:+ pretty secs +:+ "s")
  end.

(** The rows under 'Show Files': the file progress, or one row per queue
    item while there is none. *)
Definition shownFiles (fileProgress : list FileProgressEntry)
  (files : list QueueFile) : list FileProgressEntry :=
  match fileProgress with
  | [] =>
      map (λ file, mkFileProgress (q_id file) (q_id file) (q_outputFile file)
                     (q_progress file) (q_etaSeconds file))
          files
  | _ :: _ => fileProgress
  end.

(** [onDrop] of the row of [targetId]; [sourceId] is the identifier carried
    by the drag ([None] when there is none). *)
Definition onRowDrop (sourceId : option string) (targetId : string)
  (s : V1.State) : V1.State :=
  match sourceId with
  | Some source =>
      if Js.truthy source && negb (String.eqb source targetId)
      then V1.handleReorderQueue source targetId s
      else s
  | None => s
  end.

End View.

(** * The host bridge: dialog options *)

Module Bridge.

Record Filter := mkFilter { f_name : string; f_extensions : list string }.

(** The options of [openDialog]; [None] is an absent member. *)
Record OpenOptions := mkOpen {
  o_directory : option bool;
  o_multiple : option bool;
  o_filters : option (list Filter);
}.

(** The object [openDialog] hands to the native dialog. *)
Definition sanitizeOpen (options : OpenOptions) : OpenOptions :=
  let directory :=
    match o_directory options with Some true => Some true | _ => None end in
  let multiple :=
    match o_multiple options with Some true => Some true | _ => None end in
  let filters :=
    match directory, o_filters options with
    | None, Some (f :: fs) => Some (f :: fs)
    | _, _ => None
    end in
  mkOpen directory multiple filters.

Record SaveOptions := mkSave {
  sv_defaultPath : option string;
  sv_filters : option (list Filter);
}.

(** The object [saveDialog] hands to the native dialog. *)
Definition sanitizeSave (options : SaveOptions) : SaveOptions :=
  mkSave
    (match sv_defaultPath options with
     | Some path => if Js.truthy path then Some path else None
     | None => None
     end)
    (match sv_filters options with
     | Some (f :: fs) => Some (f :: fs)
     | _ => None
     end).

End Bridge.

(** * Properties *)

(** ** Strings *)

Lemma string_eqb_true (a b : string) : String.eqb a b = true ↔ a = b.
Proof. apply String.eqb_eq. Qed.

Lemma truthy_nonempty (s : string) : Js.truthy s = true ↔ s ≠ "".
Proof. destruct s; simpl; split; congruence. Qed.

Lemma truthy_empty (s : string) : Js.truthy s = false ↔ s = "".
Proof. destruct s; simpl; split; congruence. Qed.

Lemma endsWith_unfold (s suffix : string) :
  Js.endsWith s suffix =
  if String.eqb s suffix then true
  else match s with
       | EmptyString => false
       | String _ s' => Js.endsWith s' suffix
       end.
Proof. by destruct s. Qed.

Lemma endsWith_spec (s suffix : string) :
  Js.endsWith s suffix = true ↔ ∃ pre, s = pre +:+ suffix.
Proof.
  induction s as [|c s IH]; rewrite endsWith_unfold.
  - destruct (String.eqb "" suffix) eqn:E.
    + apply String.eqb_eq in E. subst. split; [|done]. intros _. by exists "".
    + split; [discriminate|]. intros [pre Hpre].
      destruct pre; simpl in Hpre; [|discriminate].
      subst. by apply String.eqb_neq in E.
  - destruct (String.eqb (String c s) suffix) eqn:E.
    + apply String.eqb_eq in E. split; [|done]. intros _. by exists "".
    + rewrite IH. split.
      * intros [pre ->]. by exists (String c pre).
      * intros [pre Hpre]. destruct pre as [|c' pre]; simpl in Hpre.
        -- subst. by apply String.eqb_neq in E.
        -- injection Hpre as -> ->. by exists pre.
Qed.

Lemma endsWithSeparator_spec (v : string) :
  endsWithSeparator v = true ↔ ends_in_separator v.
Proof.
  unfold endsWithSeparator, ends_in_separator.
  rewrite orb_true_iff, !endsWith_spec. split.
  - intros [[pre ->] | [pre ->]]; eauto.
  - intros (pre & c & -> & [-> | ->]); eauto.
Qed.

Lemma ends_in_separator_nonempty (v : string) : ends_in_separator v → v ≠ "".
Proof. intros (pre & c & -> & _). by destruct pre. Qed.

(** ** Path classification *)

(** C8, as stated, fails for [inferPathKind]: the empty string does not end
    in a separator, and it is classified 'unknown', not 'file'. *)
Lemma inferPathKind_empty_is_unknown :
  ¬ ends_in_separator "" ∧ inferPathKind "" = KUnknown ∧ inferPathKind "" ≠ KFile.
Proof.
  split; [|split; [reflexivity | discriminate]].
  intros H. by apply ends_in_separator_nonempty in H.
Qed.

(** C8, amended: a string that ends in a path separator is classified
    'folder' by the input handlers and by [inferPathKind]; every other string
    is classified 'file' by the input handlers, the empty one included;
    [inferPathKind] classifies every other non-empty string 'file' and the
    empty string 'unknown'. *)
Theorem path_classification (v : string) :
  (ends_in_separator v → classifyInput v = KFolder ∧ inferPathKind v = KFolder)
  ∧ (¬ ends_in_separator v →
       classifyInput v = KFile ∧ (v ≠ "" → inferPathKind v = KFile))
  ∧ (v = "" → classifyInput v = KFile ∧ inferPathKind v = KUnknown).
Proof.
  unfold classifyInput, inferPathKind. repeat split.
  - apply endsWithSeparator_spec in H. by rewrite H.
  - pose proof (ends_in_separator_nonempty _ H) as Hne.
    apply truthy_nonempty in Hne. apply endsWithSeparator_spec in H.
    by rewrite Hne, H.
  - destruct (endsWithSeparator v) eqn:E; [|done].
    by apply endsWithSeparator_spec in E.
  - intros Hne. apply truthy_nonempty in Hne. rewrite Hne. simpl.
    destruct (endsWithSeparator v) eqn:E; [|done].
    by apply endsWithSeparator_spec in E.
  - by subst.
  - by subst.
Qed.

Lemma path_classification_witness :
  (classifyInput "C:/Videos/HDR/" = KFolder ∧ inferPathKind "C:/Videos/HDR/" = KFolder)
  ∧ (classifyInput "movie.mkv" = KFile ∧ inferPathKind "movie.mkv" = KFile)
  ∧ (classifyInput "" = KFile ∧ inferPathKind "" = KUnknown).
Proof.
  split; [|split].
  - apply (proj1 (path_classification "C:/Videos/HDR/")).
    exists "C:/Videos/HDR", Js.slash. split; [reflexivity | by right].
  - destruct (proj1 (proj2 (path_classification "movie.mkv"))) as [H1 H2].
    + intros H. apply endsWithSeparator_spec in H. vm_compute in H. discriminate.
    + split; [exact H1 | apply H2; discriminate].
  - apply (proj2 (proj2 (path_classification ""))). reflexivity.
Defined.

(** ** Mode derivation *)

(** C4: on a state with an empty queue the queue-aware derivation and the
    derivation from the path kinds agree (when the HDR-family kind and the DV
    kind are the same in both): the mode is 'batch' exactly when both kinds
    are 'folder', and 'single' otherwise. A non-empty queue forces 'batch' in
    the queue-aware revision, whatever the kinds; the other revision does not
    read the queue. *)
Theorem mode_derivation_variants (s1 : V1.State) (s2 : V2.State) :
  (V1.queue s1 = [] →
   V1.derivedHdrKind s1 = V2.pk_hdr (V2.pathKinds s2) →
   V1.pk_dv (V1.pathKinds s1) = V2.pk_dv (V2.pathKinds s2) →
   V1.derivedMode s1 = V2.derivedMode s2)
  ∧ (V1.queue s1 = [] →
     (V1.derivedMode s1 = Batch ↔
        V1.derivedHdrKind s1 = KFolder ∧ V1.pk_dv (V1.pathKinds s1) = KFolder)
     ∧ (V1.derivedMode s1 = Single ↔
        ¬ (V1.derivedHdrKind s1 = KFolder ∧ V1.pk_dv (V1.pathKinds s1) = KFolder)))
  ∧ (V2.derivedMode s2 = Batch ↔
       V2.pk_hdr (V2.pathKinds s2) = KFolder ∧ V2.pk_dv (V2.pathKinds s2) = KFolder)
  ∧ (V2.derivedMode s2 = Single ↔
       ¬ (V2.pk_hdr (V2.pathKinds s2) = KFolder ∧ V2.pk_dv (V2.pathKinds s2) = KFolder))
  ∧ (V1.queue s1 ≠ [] → V1.derivedMode s1 = Batch)
  ∧ (∀ q, V2.derivedMode (V2.set_queue q s2) = V2.derivedMode s2).
Proof.
  unfold V1.derivedMode, V2.derivedMode.
  split; [|split; [|split; [|split; [|split]]]].
  - intros Hq Hh Hd. rewrite Hq, Hh, Hd. reflexivity.
  - intros Hq. rewrite Hq. simpl. case_decide; intuition congruence.
  - case_decide; intuition congruence.
  - case_decide; intuition congruence.
  - intros Hq. destruct (V1.queue s1); [done|]. reflexivity.
  - intros q. by destruct s2.
Qed.

Lemma mode_derivation_variants_witness :
  V1.derivedMode V1.initialState = V2.derivedMode V2.initialState.
Proof.
  apply (proj1 (mode_derivation_variants V1.initialState V2.initialState));
    reflexivity.
Defined.

(** ** Notifications *)

Lemma statusRef_after_event (st : ProcessingStatus) (s : V1.State) :
  V1.statusRef (V1.onStatusEvent st s).1 = st.
Proof.
  unfold V1.onStatusEvent. case_decide as Hne.
  - by destruct st, s.
  - by destruct s.
Qed.

Lemma notifications_of_event (st : ProcessingStatus) (s : V1.State) :
  length (notifications (V1.onStatusEvent st s).2)
  = if entersTerminal (V1.statusRef s) st then 1%nat else 0%nat.
Proof.
  unfold V1.onStatusEvent, entersTerminal.
  case_decide as Hne.
  - rewrite bool_decide_eq_true_2 by congruence. by destruct st.
  - rewrite bool_decide_eq_false_2 by (intros H; by apply H). done.
Qed.

Lemma statusCommands_cons (st : ProcessingStatus) (rest : list ProcessingStatus)
  (s : V1.State) :
  statusCommands (st :: rest) s
  = (V1.onStatusEvent st s).2 :: statusCommands rest (V1.onStatusEvent st s).1.
Proof.
  unfold statusCommands. simpl.
  destruct (V1.onStatusEvent st s) as [s1 cmds]. simpl.
  by destruct (V1.run (map V1.EvStatus rest) s1).
Qed.

(** C7: along every sequence of 'processing:status' events, the [i]-th event
    calls [notify] once when its status is 'completed' or 'error' and differs
    from the status before it (the status the listener remembers when the
    sequence starts, for the first event), and not at all otherwise; so an
    event that repeats the status of the event before it never notifies. *)
Theorem notification_on_status_edge (statuses : list ProcessingStatus)
  (s : V1.State) (i : nat) (st : ProcessingStatus) :
  statuses !! i = Some st →
  ∃ cmds,
    statusCommands statuses s !! i = Some cmds
    ∧ length (notifications cmds)
      = (if entersTerminal (previousStatus (V1.statusRef s) statuses i) st
         then 1%nat else 0%nat)
    ∧ (statuses !! S i = Some st →
       ∃ cmds', statusCommands statuses s !! S i = Some cmds'
                ∧ notifications cmds' = []).
Proof.
  revert s i. induction statuses as [|st0 rest IH]; intros s i Hi; [done|].
  rewrite statusCommands_cons.
  destruct i as [|i]; simpl in Hi.
  - injection Hi as ->. exists (V1.onStatusEvent st s).2.
    split; [done|]. split; [apply notifications_of_event|].
    intros Hnext. simpl in Hnext.
    destruct rest as [|st1 rest]; [done|]. simpl in Hnext. injection Hnext as ->.
    rewrite statusCommands_cons. eexists. split; [done|].
    pose proof (notifications_of_event st (V1.onStatusEvent st s).1) as Hn.
    rewrite statusRef_after_event in Hn. unfold entersTerminal in Hn.
    rewrite bool_decide_eq_false_2 in Hn by (intros H; by apply H).
    by apply nil_length_inv.
  - destruct (IH (V1.onStatusEvent st0 s).1 i Hi) as (cmds & Hc & Hn & Hrep).
    exists cmds. split; [done|]. split; [|done].
    rewrite Hn. rewrite statusRef_after_event.
    destruct i as [|i]; [done|]. simpl.
    destruct (rest !! i) eqn:E; [done|].
    apply lookup_ge_None in E. apply lookup_lt_Some in Hi. lia.
Qed.

Lemma notification_on_status_edge_witness :
  ∃ cmds,
    statusCommands [Processing; Completed; Completed] V1.initialState !! 1%nat
    = Some cmds
    ∧ length (notifications cmds) = 1%nat
    ∧ (∃ cmds',
         statusCommands [Processing; Completed; Completed] V1.initialState !! 2%nat
         = Some cmds'
         ∧ notifications cmds' = []).
Proof.
  destruct (notification_on_status_edge [Processing; Completed; Completed]
              V1.initialState 1 Completed) as (cmds & H1 & H2 & H3);
    [reflexivity|].
  exists cmds. split; [exact H1|]. split; [exact H2|].
  apply H3. reflexivity.
Defined.

(** ** Inbound progress events *)

Lemma mapQueue_no_match (payload : QueuePayload) (now : Z)
  (prev : list QueueFile) (metas : gmap string Meta) :
  (∀ item, item ∈ prev → q_id item ≠ qp_id payload) →
  V1.mapQueue payload now prev metas = (prev, metas).
Proof.
  revert metas. induction prev as [|item rest IH]; intros metas Hno; [done|].
  simpl. unfold V1.queueItemUpdate.
  destruct (decide (q_id item ≠ qp_id payload)) as [_|Heq].
  - rewrite IH; [done|]. intros x Hx. apply Hno. by right.
  - exfalso. apply Heq, Hno. by left.
Qed.

Lemma find_file_none (id : string) (l : list FileProgressEntry) :
  (∀ item, item ∈ l → fp_id item ≠ id) →
  List.find (λ item, bool_decide (fp_id item = id)) l = None.
Proof.
  intros Hno. destruct (List.find _ l) as [x|] eqn:E; [|done].
  apply List.find_some in E as [Hin Hx].
  apply bool_decide_eq_true in Hx. apply list_elem_of_In in Hin.
  by apply Hno in Hin.
Qed.

Lemma find_file_some (id : string) (l : list FileProgressEntry) :
  (∃ item, item ∈ l ∧ fp_id item = id) →
  is_Some (List.find (λ item, bool_decide (fp_id item = id)) l).
Proof.
  intros (item & Hin & Hid).
  destruct (List.find _ l) as [x|] eqn:E; [by eexists|].
  apply list_elem_of_In in Hin.
  pose proof (List.find_none _ _ E item Hin) as Hf. simpl in Hf.
  by apply bool_decide_eq_false in Hf.
Qed.

(** C10: a 'processing:queue' event whose id matches no queue item leaves
    the queue, and the whole state, as it was; a 'processing:file' event with
    an unknown id appends one entry built from the payload to the file list; a
    'processing:file' event with a known id replaces the entries of that id
    and leaves every other entry, and the length of the list, unchanged.
    Neither event of the file channel touches the queue. *)
Theorem progress_events_frame (now : Z) (s : V1.State) :
  (∀ payload,
     (∀ item, item ∈ V1.queue s → q_id item ≠ qp_id payload) →
     V1.onQueueEvent payload now s = s)
  ∧ (∀ payload,
       (∀ item, item ∈ V1.fileProgress s → fp_id item ≠ fpp_id payload) →
       ∃ eta,
         V1.fileProgress (V1.onFileEvent payload now s)
         = V1.fileProgress s
           ++ [mkFileProgress (fpp_id payload) (fpp_queueId payload)
                 (fpp_name payload) (fpp_progress payload) eta])
  ∧ (∀ payload,
       (∃ item, item ∈ V1.fileProgress s ∧ fp_id item = fpp_id payload) →
       ∃ eta,
         length (V1.fileProgress (V1.onFileEvent payload now s))
         = length (V1.fileProgress s)
         ∧ ∀ i item,
             V1.fileProgress s !! i = Some item →
             V1.fileProgress (V1.onFileEvent payload now s) !! i
             = Some (if decide (fp_id item = fpp_id payload)
                     then mkFileProgress (fpp_id payload) (fpp_queueId payload)
                            (fpp_name payload) (fpp_progress payload) eta
                     else item))
  ∧ (∀ payload, V1.queue (V1.onFileEvent payload now s) = V1.queue s).
Proof.
  split; [|split; [|split]].
  - intros payload Hno. unfold V1.onQueueEvent.
    rewrite mapQueue_no_match by done. by destruct s.
  - intros payload Hno. unfold V1.onFileEvent.
    rewrite find_file_none by done.
    destruct (computeSmoothedEta _ now (fpp_progress payload)) as [smoothed meta1].
    eexists. by destruct s.
  - intros payload Hex. unfold V1.onFileEvent.
    destruct (find_file_some _ _ Hex) as [entry ->].
    destruct (computeSmoothedEta _ now (fpp_progress payload)) as [smoothed meta1].
    eexists. split.
    + destruct s; simpl. by rewrite length_map.
    + intros i item Hi. destruct s; simpl in *.
      rewrite list_lookup_fmap, Hi. done.
  - intros payload. unfold V1.onFileEvent.
    destruct (computeSmoothedEta _ now (fpp_progress payload)) as [smoothed meta1].
    by destruct s.
Qed.

Lemma progress_events_frame_witness :
  let item :=
    mkQueueFile "a" "hdr.mkv" "dv.mkv" "out.mkv" "hdr.mkv" "dv.mkv" "out.mkv"
      QPending (num 0) None None None None in
  let s := V1.set_queue [item] V1.initialState in
  V1.onQueueEvent (mkQueuePayload "b" QProcessing (num 10) None None None) 1000 s = s.
Proof.
  intros item s.
  apply (proj1 (progress_events_frame 1000 s)).
  intros x Hx. apply list_elem_of_singleton in Hx. subst x. simpl. discriminate.
Defined.

(** ** Adding to the queue *)

Lemma or_else_empty (a b : string) : Js.or_else a b = "" ↔ a = "" ∧ b = "".
Proof. unfold Js.or_else. destruct a; simpl; split; (intuition congruence). Qed.

(** C9: [addToQueue] changes nothing unless both the resolved HDR-family
    path and the DV path are non-empty; when they are, it appends exactly one
    entry at the end of the queue, 'pending' with progress 0 and carrying the
    two source paths, adds the id of the entry to the selection, empties the
    HDR, HDR10+, DV and output paths, and leaves the concurrency limit, the
    temp-file flag and the tool paths as they were. *)
Theorem addToQueue_effect (id logId : string) (now : Z) (s : V1.State) :
  (V1.derivedHdrPath s = "" ∨ V1.dvPath (V1.config s) = "" →
   V1.addToQueue id logId now s = s)
  ∧ (V1.derivedHdrPath s ≠ "" → V1.dvPath (V1.config s) ≠ "" →
     let s' := V1.addToQueue id logId now s in
     (∃ entry,
        V1.queue s' = V1.queue s ++ [entry]
        ∧ q_id entry = id ∧ q_status entry = QPending ∧ q_progress entry = num 0
        ∧ q_hdrPath entry = V1.derivedHdrPath s
        ∧ q_dvPath entry = V1.dvPath (V1.config s))
     ∧ V1.selectedQueueIds s' = {[ id ]} ∪ V1.selectedQueueIds s
     ∧ V1.hdrPath (V1.config s') = ""
     ∧ V1.hdr10plusPath (V1.config s') = ""
     ∧ V1.dvPath (V1.config s') = ""
     ∧ V1.outputPath (V1.config s') = ""
     ∧ V1.parallelTasks (V1.config s') = V1.parallelTasks (V1.config s)
     ∧ V1.keepTempFiles (V1.config s') = V1.keepTempFiles (V1.config s)
     ∧ V1.toolPaths s' = V1.toolPaths s).
Proof.
  split.
  - intros Hempty. unfold V1.addToQueue.
    destruct Hempty as [H|H]; apply truthy_empty in H; rewrite H; simpl;
      [done | by rewrite orb_true_r].
  - intros Hh Hd s'. subst s'. unfold V1.addToQueue.
    apply truthy_nonempty in Hh, Hd. rewrite Hh, Hd. simpl.
    split; [eexists; repeat split|]; by destruct s.
Qed.

Lemma addToQueue_effect_witness :
  let s :=
    V1.update_config (V1.set_dvPath "movie.dv.mkv")
      (V1.update_config (V1.set_hdrPath "movie.hdr.mkv") V1.initialState) in
  V1.queue (V1.addToQueue "id-1" "log-1" 0 s)
  = [mkQueueFile "id-1" "movie.hdr.mkv" "movie.dv.mkv" "movie.hdr.hybrid.mkv"
       "movie.hdr.mkv" "movie.dv.mkv" "movie.hdr.hybrid.mkv" QPending (num 0)
       None None None None]
  ∧ V1.hdrPath (V1.config (V1.addToQueue "id-1" "log-1" 0 s)) = "".
Proof.
  intros s.
  destruct (proj2 (addToQueue_effect "id-1" "log-1" 0 s)) as (_ & _ & Hh & _);
    [discriminate | discriminate |].
  split; [reflexivity | exact Hh].
Defined.

(** ** The default output name *)

Lemma startsWith_app (pat rest : string) : Js.startsWith (pat +:+ rest) pat = true.
Proof.
  induction pat as [|c pat IH]; [by destruct rest|].
  simpl. by rewrite Ascii.eqb_refl.
Qed.

Lemma drop_length_app (pat rest : string) :
  Js.drop (String.length pat) (pat +:+ rest) = rest.
Proof. induction pat as [|c pat IH]; [by destruct rest|]. simpl. exact IH. Qed.

Lemma replace_unfold (s pat rep : string) :
  Js.replace s pat rep =
  if Js.startsWith s pat then rep +:+ Js.drop (String.length pat) s
  else match s with
       | EmptyString => EmptyString
       | String c s' => String c (Js.replace s' pat rep)
       end.
Proof. by destruct s. Qed.

(** [replace] rewrites the leftmost occurrence of the pattern: when no
    occurrence starts inside [before], the occurrence after it is the one
    replaced, whatever follows. *)
Lemma replace_leftmost (before after pat rep : string) :
  (∀ a1 a2, before = a1 +:+ a2 → a2 ≠ "" →
            Js.startsWith (a2 +:+ pat +:+ after) pat = false) →
  Js.replace (before +:+ pat +:+ after) pat rep = before +:+ rep +:+ after.
Proof.
  induction before as [|c before IH]; intros Hfirst.
  - change ("" +:+ pat +:+ after) with (pat +:+ after).
    rewrite replace_unfold, startsWith_app. by rewrite drop_length_app.
  - rewrite replace_unfold.
    rewrite (Hfirst "" (String c before)) by done.
    change (String c before +:+ rep +:+ after)
      with (String c (before +:+ rep +:+ after)).
    change (String c before +:+ pat +:+ after)
      with (String c (before +:+ pat +:+ after)).
    f_equal. apply IH. intros a1 a2 -> Hne.
    by apply (Hfirst (String c a1) a2).
Qed.

(** ** Submission *)




(** ** The HDR and HDR10+ slots exclude each other *)

Lemma assignPath_exclusive (target : V1.Target) (v : string)
  (c : V1.ProcessingConfig) :
  exclusive c → exclusive (V1.assignPath target v c).
Proof.
  unfold exclusive. destruct target, c; simpl; intros [-> | ->]; auto.
Qed.

Lemma assignPath_clears (v : string) (c : V1.ProcessingConfig) :
  (V1.hdrPath (V1.assignPath V1.THdr v c) = v
   ∧ V1.hdr10plusPath (V1.assignPath V1.THdr v c) = "")
  ∧ (V1.hdr10plusPath (V1.assignPath V1.THdr10plus v c) = v
     ∧ V1.hdrPath (V1.assignPath V1.THdr10plus v c) = "").
Proof. by destruct c. Qed.

Lemma exclusiveState_config (f : V1.ProcessingConfig → V1.ProcessingConfig)
  (s : V1.State) :
  (∀ c, exclusive c → exclusive (f c)) →
  exclusiveState s → exclusiveState (V1.update_config f s).
Proof. intros Hf [Hc Hp]. split; destruct s; simpl in *; auto. Qed.

Lemma exclusiveState_frame (s s' : V1.State) :
  V1.config s' = V1.config s → V1.presets s' = V1.presets s →
  exclusiveState s → exclusiveState s'.
Proof. unfold exclusiveState. by intros -> ->. Qed.

Lemma exclusiveState_pathKinds (f : V1.PathKinds → V1.PathKinds) (s : V1.State) :
  exclusiveState s → exclusiveState (V1.update_pathKinds f s).
Proof. apply exclusiveState_frame; by destruct s. Qed.

Lemma find_preset_in (presetId : string) (l : list V1.Preset) (p : V1.Preset) :
  List.find (λ item, bool_decide (V1.preset_id item = presetId)) l = Some p →
  p ∈ l.
Proof. intros H. apply List.find_some in H as [H _]. by apply list_elem_of_In. Qed.

Lemma applyPreset_exclusive (presetId : string) (s : V1.State) :
  exclusiveState s → exclusiveState (V1.applyPreset presetId s).
Proof.
  intros [Hc Hp]. unfold V1.applyPreset.
  destruct (List.find _ (V1.presets s)) as [p|] eqn:E; [|done].
  apply find_preset_in in E. split.
  - destruct s; simpl in *. by apply (proj1 (Forall_forall _ _) Hp).
  - by destruct s.
Qed.

Lemma savePreset_exclusive (name : option string) (id : string) (s : V1.State) :
  exclusiveState s → exclusiveState (V1.savePreset name id s).
Proof.
  intros [Hc Hp]. unfold V1.savePreset.
  destruct name as [name|]; [|done]. destruct (Js.truthy name); [|done].
  split; destruct s; simpl in *; [done|].
  apply Forall_app. split; [done|]. by apply Forall_singleton.
Qed.

Lemma handleDropAssign_exclusive (path : string) (isFolder : bool)
  (name : option string) (s : V1.State) :
  exclusiveState s → exclusiveState (V1.handleDropAssign path isFolder name s).
Proof.
  intros H. unfold V1.handleDropAssign.
  repeat match goal with |- context [if ?b then _ else _] => destruct b end;
    try done;
    apply exclusiveState_pathKinds, exclusiveState_config; try done;
    intros c _; unfold exclusive; destruct c; simpl; auto.
  all: intros c Hc; unfold exclusive in *; destruct c; simpl in *; auto.
Qed.

Lemma step_exclusive (e : V1.Event) (s : V1.State) :
  exclusiveState s → exclusiveState (V1.step e s).1.
Proof.
  intros H. destruct e; simpl.
  - apply exclusiveState_pathKinds, exclusiveState_config; [|done].
    intros c. apply assignPath_exclusive.
  - unfold V1.browseFile.
    destruct tauri, target, answer as [a|]; simpl; try done;
      try destruct (Js.truthy a); try done;
      apply exclusiveState_pathKinds, exclusiveState_config; try done;
      intros c Hc; unfold exclusive in *; destruct c; simpl in *; auto.
  - unfold V1.browseFolder.
    destruct tauri, target, answer as [a|]; simpl; try done;
      try destruct (Js.truthy a); try done;
      apply exclusiveState_pathKinds, exclusiveState_config; try done;
      intros c Hc; unfold exclusive in *; destruct c; simpl in *; auto.
  - by apply handleDropAssign_exclusive.
  - unfold V1.addToQueue. destruct (_ || _); [done|].
    destruct H as [Hc Hp]. split; destruct s; simpl in *; [by left | done].
  - by apply savePreset_exclusive.
  - unfold V1.handlePresetChange. destruct (String.eqb value "__save__").
    + by apply savePreset_exclusive.
    + apply applyPreset_exclusive.
      revert H. apply exclusiveState_frame; by destruct s.
  - apply exclusiveState_config; [|done].
    intros c Hc; unfold exclusive in *; destruct c; simpl in *; auto.
  - apply exclusiveState_config; [|done].
    intros c Hc; unfold exclusive in *; destruct c; simpl in *; auto.
  - revert H. apply exclusiveState_frame; by destruct s.
  - revert H. apply exclusiveState_frame; by destruct s.
  - unfold V1.handleStart.
    repeat match goal with |- context [if ?b then _ else _] => destruct b end;
      simpl; revert H; apply exclusiveState_frame; by destruct s.
  - revert H. apply exclusiveState_frame; by destruct s.
  - unfold V1.handleStop. destruct tauri; simpl; [done|].
    revert H. apply exclusiveState_frame; by destruct s.
  - revert H. apply exclusiveState_frame; by destruct s.
  - unfold V1.handleReorderQueue.
    repeat match goal with |- context [match ?b with _ => _ end] => destruct b end;
      try done; revert H; apply exclusiveState_frame; by destruct s.
  - unfold V1.onToggle. case_decide; revert H; apply exclusiveState_frame; by destruct s.
  - unfold V1.onToggleAll. case_decide; revert H; apply exclusiveState_frame;
      by destruct s.
  - revert H. apply exclusiveState_frame; by destruct s.
  - unfold V1.onQueueEvent. destruct (V1.mapQueue _ _ _ _).
    revert H. apply exclusiveState_frame; by destruct s.
  - unfold V1.onFileEvent. destruct (computeSmoothedEta _ _ _).
    revert H. apply exclusiveState_frame; by destruct s.
  - unfold V1.onStatusEvent. case_decide; [destruct nextStatus|]; simpl;
      revert H; apply exclusiveState_frame; by destruct s.
  - destruct H as [_ Hp]. split; [by left|]. by destruct s.
Qed.

Lemma reachable_exclusiveState (s : V1.State) : V1.reachable s → exclusiveState s.
Proof.
  induction 1 as [|e s _ IH].
  - split; [by left | constructor].
  - by apply step_exclusive.
Qed.

(** C3: in every state of the revision with both slots that is reachable
    from the initial state (by text entry, browse or prompt answers, drops,
    add-to-queue, saving and applying presets, and every other handler and
    inbound event of the view, a restart included), the HDR path or the
    HDR10+ path is empty; typing into the HDR input sets the HDR path and
    empties the HDR10+ path, and the other way round; and after any event a
    non-empty HDR path comes with an empty HDR10+ path, and the other way
    round. *)
Theorem hdr_slots_exclusive :
  (∀ s, V1.reachable s →
        V1.hdrPath (V1.config s) = "" ∨ V1.hdr10plusPath (V1.config s) = "")
  ∧ (∀ v s,
       V1.hdrPath (V1.config (V1.onInputChange V1.THdr v s)) = v
       ∧ V1.hdr10plusPath (V1.config (V1.onInputChange V1.THdr v s)) = "")
  ∧ (∀ v s,
       V1.hdr10plusPath (V1.config (V1.onInputChange V1.THdr10plus v s)) = v
       ∧ V1.hdrPath (V1.config (V1.onInputChange V1.THdr10plus v s)) = "")
  ∧ (∀ e s, V1.reachable s →
       (V1.hdrPath (V1.config (V1.step e s).1) ≠ "" →
        V1.hdr10plusPath (V1.config (V1.step e s).1) = "")
       ∧ (V1.hdr10plusPath (V1.config (V1.step e s).1) ≠ "" →
          V1.hdrPath (V1.config (V1.step e s).1) = "")).
Proof.
  split; [|split; [|split]].
  - intros s Hs. by destruct (reachable_exclusiveState s Hs).
  - intros v s. by destruct s as [? [] ? ? ? ? ? ? ? ? ? ? ? ? ? ? ?].
  - intros v s. by destruct s as [? [] ? ? ? ? ? ? ? ? ? ? ? ? ? ? ?].
  - intros e s Hs.
    destruct (reachable_exclusiveState _ (V1.reachable_step e s Hs)) as [[H|H] _];
      rewrite H; split; intros; done.
Qed.

Lemma hdr_slots_exclusive_witness :
  let s :=
    (V1.step (V1.EvDrop "movie.hdr.mkv" false None)
       (V1.step (V1.EvInput V1.THdr10plus "movie.hdr10plus.mkv") V1.initialState).1).1 in
  V1.hdrPath (V1.config s) = "" ∨ V1.hdr10plusPath (V1.config s) = "".
Proof.
  intros s. apply (proj1 hdr_slots_exclusive).
  apply V1.reachable_step, V1.reachable_step, V1.reachable_init.
Defined.

(** ** ETA smoothing *)




Lemma slice_last_short {A} (n : nat) (l : list A) :
  (length l ≤ n)%nat → slice_last n l = l.
Proof. intros H. unfold slice_last. by replace (length l - n)%nat with 0%nat by lia. Qed.




Lemma computeSmoothedEta_nonpositive (meta : Meta) (now : Z) (progress : Qc) :
  (progress <= 0)%Qc → computeSmoothedEta meta now progress = (None, meta).
Proof. intros H. unfold computeSmoothedEta. by rewrite decide_True. Qed.

Lemma computeSmoothedEta_positive (meta : Meta) (now : Z) (progress : Qc) :
  (0 < progress)%Qc →
  let window :=
    slice_last etaAveragingWindow (m_samples meta ++ [mkSample now progress]) in
  let rates := positive_rates (sample_rates window) in
  computeSmoothedEta meta now progress
  = (match rates with
     | [] => None
     | _ :: _ =>
         Some (Math_round (Math_max (num 0) (num 100 - progress) / averageRate rates)%Qc)
     end,
     mkMeta (m_start meta) (m_lastProgress meta) window).
Proof.
  intros Hpos window rates. unfold computeSmoothedEta.
  rewrite decide_False by (by apply Qclt_not_le).
  fold window. fold rates. by destruct rates.
Qed.
















(** ** Loading the persisted settings *)

Lemma present_truthy (text : string) :
  text ≠ "" → Storage.present (Some text) = Some text.
Proof. intros H. apply truthy_nonempty in H. unfold Storage.present. by rewrite H. Qed.

(** C6: whatever [JSON.parse] is, a storage entry on which it throws makes
    no loader throw and leaves the defaults in place: the load effect of the
    revision with presets keeps the configuration, the tool paths and the
    (empty) presets it started from, and the lazy initialisers return the
    hard-coded defaults. When the entry parses to an object, its members are
    merged over the defaults (for the configuration of the load effect: the
    two persisted members, each defaulting when absent or null). *)
Theorem malformed_storage_falls_back (JSON_parse : string → option Storage.json)
  (text : string) :
  (JSON_parse text = None →
   Storage.loadConfigV1 JSON_parse (Some text) (Storage.configObjV1 V1.defaultConfig)
   = Storage.Returns (Storage.configObjV1 V1.defaultConfig)
   ∧ Storage.loadToolsV1 JSON_parse (Some text)
       (Storage.toolPathsObjV1 V1.defaultToolPaths)
     = Storage.Returns (Storage.toolPathsObjV1 V1.defaultToolPaths)
   ∧ Storage.loadPresetsV1 JSON_parse (Some text) [] = Storage.Returns []
   ∧ Storage.loadSettingsV1 JSON_parse (Some text) (Some text) (Some text)
     = Storage.Returns
         (Storage.mkLoaded (Storage.configObjV1 V1.defaultConfig)
            (Storage.toolPathsObjV1 V1.defaultToolPaths) [])
   ∧ (∀ getItem,
        getItem = Storage.Returns (Some text) ∨ (∃ e, getItem = Storage.Throws e) →
        Storage.initConfigV3 JSON_parse true getItem
        = Storage.Returns Storage.defaultConfigV3
        ∧ Storage.initToolPathsV3 JSON_parse true getItem
          = Storage.Returns Storage.defaultToolPathsV3))
  ∧ (∀ props, text ≠ "" → JSON_parse text = Some (Storage.JObj props) →
       Storage.loadConfigV1 JSON_parse (Some text)
         (Storage.configObjV1 V1.defaultConfig)
       = Storage.Returns
           (<["keepTempFiles" :=
                Storage.nullish (Storage.spread (Storage.JObj props) !! "keepTempFiles")
                  (Storage.JBool false)]>
              (<["parallelTasks" :=
                   Storage.nullish
                     (Storage.spread (Storage.JObj props) !! "parallelTasks")
                     (Storage.JNum (num 4))]>
                 (Storage.configObjV1 V1.defaultConfig)))
       ∧ Storage.loadToolsV1 JSON_parse (Some text)
           (Storage.toolPathsObjV1 V1.defaultToolPaths)
         = Storage.Returns
             (Storage.spread (Storage.JObj props)
              ∪ Storage.toolPathsObjV1 V1.defaultToolPaths)
       ∧ Storage.initConfigV3 JSON_parse true (Storage.Returns (Some text))
         = Storage.Returns
             (Storage.spread (Storage.JObj props) ∪ Storage.defaultConfigV3)
       ∧ Storage.initToolPathsV3 JSON_parse true (Storage.Returns (Some text))
         = Storage.Returns
             (Storage.spread (Storage.JObj props) ∪ Storage.defaultToolPathsV3)).
Proof.
  split.
  - intros Hbad.
    assert (Hc : Storage.loadConfigV1 JSON_parse (Some text)
                   (Storage.configObjV1 V1.defaultConfig)
                 = Storage.Returns (Storage.configObjV1 V1.defaultConfig)).
    { unfold Storage.loadConfigV1, Storage.parse, Storage.present.
      destruct (Js.truthy text); [|done]. by rewrite Hbad. }
    assert (Ht : Storage.loadToolsV1 JSON_parse (Some text)
                   (Storage.toolPathsObjV1 V1.defaultToolPaths)
                 = Storage.Returns (Storage.toolPathsObjV1 V1.defaultToolPaths)).
    { unfold Storage.loadToolsV1, Storage.parse, Storage.present.
      destruct (Js.truthy text); [|done]. by rewrite Hbad. }
    assert (Hp : Storage.loadPresetsV1 JSON_parse (Some text) [] = Storage.Returns []).
    { unfold Storage.loadPresetsV1, Storage.parse, Storage.present.
      destruct (Js.truthy text); [|done]. by rewrite Hbad. }
    split; [exact Hc|]. split; [exact Ht|]. split; [exact Hp|]. split.
    + unfold Storage.loadSettingsV1. by rewrite Hc, Ht, Hp.
    + intros getItem [-> | [e ->]]; unfold Storage.initConfigV3,
        Storage.initToolPathsV3, Storage.lazyInit, Storage.parse; simpl; [|done].
      destruct (Js.truthy text); simpl; [|done]. by rewrite Hbad.
  - intros props Hne Hok.
    unfold Storage.loadConfigV1, Storage.loadToolsV1, Storage.initConfigV3,
      Storage.initToolPathsV3, Storage.lazyInit, Storage.parse.
    cbn [negb Storage.bind Storage.try_catch].
    rewrite (present_truthy text Hne), Hok. done.
Qed.

Lemma malformed_storage_falls_back_witness :
  let JSON_parse (text : string) :=
    if String.eqb text "{}" then Some (Storage.JObj []) else None in
  Storage.loadSettingsV1 JSON_parse (Some "{oops") (Some "{oops") (Some "{oops")
  = Storage.Returns
      (Storage.mkLoaded (Storage.configObjV1 V1.defaultConfig)
         (Storage.toolPathsObjV1 V1.defaultToolPaths) [])
  ∧ Storage.initConfigV3 JSON_parse true (Storage.Returns (Some "{}"))
    = Storage.Returns (Storage.spread (Storage.JObj []) ∪ Storage.defaultConfigV3).
Proof.
  intros JSON_parse. split.
  - destruct (proj1 (malformed_storage_falls_back JSON_parse "{oops"))
      as (_ & _ & _ & H & _); [reflexivity | exact H].
  - destruct (proj2 (malformed_storage_falls_back JSON_parse "{}") [])
      as (_ & _ & H & _); [discriminate | reflexivity | exact H].
Defined.

(** * Further properties of the view *)

(** ** Reordering the queue *)

Lemma findIndex_Some (id : string) (l : list QueueFile) (i : nat) :
  V1.findIndex id l = Some i →
  ∃ item, l !! i = Some item ∧ q_id item = id.
Proof.
  revert i. induction l as [|x l IH]; intros i; simpl; [done|].
  case_decide as Hx.
  - intros [= <-]. by exists x.
  - destruct (V1.findIndex id l) as [j|]; simpl; [|done].
    intros [= <-]. by apply IH.
Qed.

Lemma remove_insert_same {A} (l : list A) (i : nat) (x : A) :
  l !! i = Some x →
  take i (take i l ++ drop (S i) l) ++ x :: drop i (take i l ++ drop (S i) l) = l.
Proof.
  intros Hi. pose proof (lookup_lt_Some _ _ _ Hi) as Hlt.
  assert (Hlen : length (take i l) = i) by (rewrite length_take; lia).
  rewrite take_app_length' by done.
  rewrite drop_app_length' by done.
  by apply take_drop_middle.
Qed.

Lemma handleReorderQueue_perm (sourceId targetId : string) (s : V1.State) :
  V1.queue (V1.handleReorderQueue sourceId targetId s) ≡ₚ V1.queue s.
Proof.
  unfold V1.handleReorderQueue.
  destruct (V1.findIndex sourceId (V1.queue s)) as [i|] eqn:Ei; [|done].
  destruct (V1.findIndex targetId (V1.queue s)) as [j|] eqn:Ej; [|done].
  destruct (findIndex_Some _ _ _ Ei) as (moved & Hi & Hid).
  rewrite Hi. destruct s; simpl in *.
  rewrite <- Permutation_middle.
  rewrite take_drop. rewrite Permutation_middle.
  by rewrite take_drop_middle.
Qed.

Lemma handleReorderQueue_moved (sourceId targetId : string) (s : V1.State)
  (i j : nat) (moved : QueueFile) :
  V1.findIndex sourceId (V1.queue s) = Some i →
  V1.findIndex targetId (V1.queue s) = Some j →
  V1.queue s !! i = Some moved →
  V1.queue (V1.handleReorderQueue sourceId targetId s) !! j = Some moved.
Proof.
  intros Ei Ej Hi. unfold V1.handleReorderQueue. rewrite Ei, Ej, Hi.
  destruct (findIndex_Some _ _ _ Ej) as (target & Hj & _).
  pose proof (lookup_lt_Some _ _ _ Hi) as Hilt.
  pose proof (lookup_lt_Some _ _ _ Hj) as Hjlt.
  destruct s; simpl in *.
  apply list_lookup_middle.
  rewrite length_take, length_app, length_take, length_drop. lia.
Qed.

Lemma handleReorderQueue_frame (sourceId targetId : string) (s : V1.State) :
  V1.handleReorderQueue sourceId targetId s
  = V1.set_queue (V1.queue (V1.handleReorderQueue sourceId targetId s)) s.
Proof.
  unfold V1.handleReorderQueue.
  destruct (V1.findIndex sourceId (V1.queue s)); [|by destruct s].
  destruct (V1.findIndex targetId (V1.queue s)); [|by destruct s].
  destruct (V1.queue s !! _); by destruct s.
Qed.

(** Reordering by drag gesture: the queue after [handleReorderQueue] is a
    permutation of the queue before and nothing else in the state changes;
    when either identifier is not in the queue, or both are the same, the
    state is unchanged; otherwise the moved item stands at the index the
    target had. *)
Theorem reorder_queue (sourceId targetId : string) (s : V1.State) :
  V1.queue (V1.handleReorderQueue sourceId targetId s) ≡ₚ V1.queue s
  ∧ V1.handleReorderQueue sourceId targetId s
    = V1.set_queue (V1.queue (V1.handleReorderQueue sourceId targetId s)) s
  ∧ (V1.findIndex sourceId (V1.queue s) = None
     ∨ V1.findIndex targetId (V1.queue s) = None
     ∨ sourceId = targetId →
     V1.handleReorderQueue sourceId targetId s = s)
  ∧ (∀ i j moved,
       V1.findIndex sourceId (V1.queue s) = Some i →
       V1.findIndex targetId (V1.queue s) = Some j →
       V1.queue s !! i = Some moved →
       V1.queue (V1.handleReorderQueue sourceId targetId s) !! j = Some moved).
Proof.
  unfold V1.handleReorderQueue.
  destruct (V1.findIndex sourceId (V1.queue s)) as [i|] eqn:Ei;
    [destruct (V1.findIndex targetId (V1.queue s)) as [j|] eqn:Ej|].
  - destruct (findIndex_Some _ _ _ Ei) as (moved & Hi & Hid).
    destruct (findIndex_Some _ _ _ Ej) as (target & Hj & Hjd).
    rewrite Hi. split; [|split; [|split]].
    + destruct s; simpl in *.
      rewrite <- Permutation_middle.
      rewrite take_drop. rewrite Permutation_middle.
      by rewrite take_drop_middle.
    + by destruct s.
    + intros [H | [H | H]]; try done.
      rewrite H in Ei. rewrite Ei in Ej. injection Ej as <-.
      destruct s; simpl in *. by rewrite remove_insert_same.
    + intros i' j' moved' [= <-] [= <-] Hm. rewrite Hi in Hm. injection Hm as <-.
      pose proof (lookup_lt_Some _ _ _ Hi) as Hilt.
      pose proof (lookup_lt_Some _ _ _ Hj) as Hjlt.
      destruct s; simpl in *.
      apply list_lookup_middle.
      rewrite length_take, length_app, length_take, length_drop. lia.
  - split; [done|]. split; [by destruct s|]. split; [done|]. intros; done.
  - split; [done|]. split; [by destruct s|]. split; [done|]. intros; done.
Qed.

Lemma reorder_queue_witness :
  let item id :=
    mkQueueFile id "hdr" "dv" "DV.HDR" "hdr" "dv" "" QPending (num 0)
      None None None None in
  let s := V1.set_queue [item "A"; item "B"; item "C"] V1.initialState in
  V1.queue (V1.handleReorderQueue "C" "A" s) !! 0%nat = Some (item "C")
  ∧ map q_id (V1.queue (V1.handleReorderQueue "C" "A" s)) = ["C"; "A"; "B"].
Proof.
  intros item s. split; [|reflexivity].
  apply (proj2 (proj2 (proj2 (reorder_queue "C" "A" s))) 2%nat 0%nat);
    reflexivity.
Defined.

(** ** Selection *)

Lemma selected_after_set (ids : gset string) (s : V1.State) :
  V1.selectedQueueIds (V1.set_selectedQueueIds ids s) = ids.
Proof. by destruct s. Qed.

Lemma set_selected_twice (a b : gset string) (s : V1.State) :
  V1.set_selectedQueueIds a (V1.set_selectedQueueIds b s)
  = V1.set_selectedQueueIds a s.
Proof. by destruct s. Qed.

Lemma set_selected_same (s : V1.State) :
  V1.set_selectedQueueIds (V1.selectedQueueIds s) s = s.
Proof. by destruct s. Qed.

Lemma onToggle_selected (id : string) (s : V1.State) :
  id ∈ V1.selectedQueueIds s →
  V1.onToggle id s = V1.set_selectedQueueIds (V1.selectedQueueIds s ∖ {[ id ]}) s.
Proof. intros H. unfold V1.onToggle. by rewrite decide_True. Qed.

Lemma onToggle_unselected (id : string) (s : V1.State) :
  id ∉ V1.selectedQueueIds s →
  V1.onToggle id s = V1.set_selectedQueueIds ({[ id ]} ∪ V1.selectedQueueIds s) s.
Proof. intros H. unfold V1.onToggle. by rewrite decide_False. Qed.

(** Toggling one item: its membership in the selection flips, no other
    membership changes, and toggling it twice gives back the state. Toggling
    all: a selection whose size differs from the queue length becomes the set
    of all queue ids; one whose size equals the queue length becomes empty;
    so, when the queue ids are pairwise distinct, toggling all twice from a
    partial selection ends with nothing selected. *)
Theorem selection_toggles (s : V1.State) :
  (∀ id,
     (id ∈ V1.selectedQueueIds (V1.onToggle id s) ↔ id ∉ V1.selectedQueueIds s)
     ∧ (∀ other, other ≠ id →
          (other ∈ V1.selectedQueueIds (V1.onToggle id s)
           ↔ other ∈ V1.selectedQueueIds s))
     ∧ V1.onToggle id (V1.onToggle id s) = s)
  ∧ (size (V1.selectedQueueIds s) ≠ length (V1.queue s) →
     ∀ id, id ∈ V1.selectedQueueIds (V1.onToggleAll s)
           ↔ ∃ item, item ∈ V1.queue s ∧ q_id item = id)
  ∧ (size (V1.selectedQueueIds s) = length (V1.queue s) →
     V1.selectedQueueIds (V1.onToggleAll s) = ∅)
  ∧ (NoDup (map q_id (V1.queue s)) →
     size (V1.selectedQueueIds s) ≠ length (V1.queue s) →
     V1.selectedQueueIds (V1.onToggleAll (V1.onToggleAll s)) = ∅).
Proof.
  split; [|split; [|split]].
  - intros id.
    destruct (decide (id ∈ V1.selectedQueueIds s)) as [Hin|Hout].
    + rewrite (onToggle_selected id s Hin), selected_after_set.
      split; [set_solver|]. split; [set_solver|].
      rewrite onToggle_unselected by (rewrite selected_after_set; set_solver).
      rewrite selected_after_set, set_selected_twice.
      replace ({[id]} ∪ V1.selectedQueueIds s ∖ {[id]}) with (V1.selectedQueueIds s)
        by (apply set_eq; intros x; destruct (decide (x = id)); set_solver).
      apply set_selected_same.
    + rewrite (onToggle_unselected id s Hout), selected_after_set.
      split; [set_solver|]. split; [set_solver|].
      rewrite onToggle_selected by (rewrite selected_after_set; set_solver).
      rewrite selected_after_set, set_selected_twice.
      replace (({[id]} ∪ V1.selectedQueueIds s) ∖ {[id]}) with (V1.selectedQueueIds s)
        by set_solver.
      apply set_selected_same.
  - intros Hne id. unfold V1.onToggleAll. rewrite decide_False by done.
    rewrite selected_after_set, elem_of_list_to_set, list_elem_of_fmap.
    split; intros (item & H1 & H2); exists item; done.
  - intros Heq. unfold V1.onToggleAll. rewrite decide_True by done.
    apply selected_after_set.
  - intros Hnd Hne. unfold V1.onToggleAll at 2. rewrite decide_False by done.
    unfold V1.onToggleAll. rewrite selected_after_set.
    rewrite decide_True; [apply selected_after_set|].
    rewrite size_list_to_set by done. rewrite length_map. by destruct s.
Qed.

Lemma selection_toggles_witness :
  let item id :=
    mkQueueFile id "hdr" "dv" "DV.HDR" "hdr" "dv" "" QPending (num 0)
      None None None None in
  let s :=
    V1.set_selectedQueueIds {[ "B" ]}
      (V1.set_queue [item "A"; item "B"] V1.initialState) in
  V1.selectedQueueIds (V1.onToggleAll (V1.onToggleAll s)) = ∅.
Proof.
  intros item s.
  apply (proj2 (proj2 (proj2 (selection_toggles s)))).
  - simpl. repeat constructor; set_solver.
  - vm_compute. discriminate.
Defined.

(** ** Queue events *)

Lemma queueItemUpdate_other_key (payload : QueuePayload) (now : Z)
  (item : QueueFile) (metas : gmap string Meta) (k : string) :
  k ≠ qp_id payload →
  (V1.queueItemUpdate payload now item metas).2 !! k = metas !! k.
Proof.
  intros Hk. unfold V1.queueItemUpdate.
  destruct (decide (q_id item ≠ qp_id payload)) as [|Heq]; [done|].
  assert (Hid : q_id item = qp_id payload)
    by (destruct (decide (q_id item = qp_id payload)); [done | by destruct Heq]).
  destruct (qp_status payload); simpl;
    try (rewrite lookup_delete_ne by congruence; done).
  destruct (computeSmoothedEta _ now (qp_progress payload)) as [smoothed meta1].
  simpl. by rewrite lookup_insert_ne by congruence.
Qed.

Lemma queueItemUpdate_terminal_key (payload : QueuePayload) (now : Z)
  (item : QueueFile) (metas : gmap string Meta) :
  qp_status payload ≠ QProcessing →
  (V1.queueItemUpdate payload now item metas).2 !! qp_id payload
  = if decide (q_id item = qp_id payload) then None else metas !! qp_id payload.
Proof.
  intros Hst. unfold V1.queueItemUpdate.
  destruct (decide (q_id item ≠ qp_id payload)) as [Hne|Heq].
  - by rewrite decide_False.
  - assert (Hid : q_id item = qp_id payload)
      by (destruct (decide (q_id item = qp_id payload)); [done | by destruct Heq]).
    rewrite decide_True by done.
    destruct (qp_status payload); simpl; try done;
      by rewrite Hid, lookup_delete_eq.
Qed.

Lemma queueItemUpdate_item (payload : QueuePayload) (now : Z)
  (item : QueueFile) (metas : gmap string Meta) :
  let item' := (V1.queueItemUpdate payload now item metas).1 in
  (q_id item', q_hdrFile item', q_dvFile item', q_outputFile item',
   q_hdrPath item', q_dvPath item', q_outputPath item')
  = (q_id item, q_hdrFile item, q_dvFile item, q_outputFile item,
     q_hdrPath item, q_dvPath item, q_outputPath item)
  ∧ (q_id item ≠ qp_id payload → item' = item)
  ∧ (q_id item = qp_id payload →
     q_status item' = qp_status payload
     ∧ q_progress item' = qp_progress payload
     ∧ (qp_status payload = QCompleted → q_etaSeconds item' = Some 0%Z)
     ∧ (qp_status payload = QError ∨ qp_status payload = QPending →
        q_etaSeconds item' = q_etaSeconds item)).
Proof.
  unfold V1.queueItemUpdate.
  destruct (decide (q_id item ≠ qp_id payload)) as [Hne|Heq]; simpl.
  - split; [done|]. split; done.
  - destruct (qp_status payload) eqn:Est; simpl;
      try (split; [done|]; split; [done|]; intros _;
           repeat split; try done; intros [?|?]; done).
    destruct (computeSmoothedEta _ now (qp_progress payload)) as [smoothed meta1].
    simpl. split; [done|]. split; [done|]. intros _.
    repeat split; try done. intros [?|?]; done.
Qed.

Lemma mapQueue_lookup (payload : QueuePayload) (now : Z) (prev : list QueueFile)
  (metas : gmap string Meta) (i : nat) (item : QueueFile) :
  prev !! i = Some item →
  ∃ metas0,
    (V1.mapQueue payload now prev metas).1 !! i
    = Some (V1.queueItemUpdate payload now item metas0).1.
Proof.
  revert metas i. induction prev as [|x rest IH]; intros metas i Hi; [done|].
  simpl.
  destruct (V1.queueItemUpdate payload now x metas) as [x' metas1] eqn:Ex.
  destruct (V1.mapQueue payload now rest metas1) as [rest' metas2] eqn:Er.
  destruct i as [|i]; simpl in *.
  - injection Hi as <-. exists metas. by rewrite Ex.
  - destruct (IH metas1 i Hi) as (metas0 & H0). exists metas0.
    by rewrite Er in H0.
Qed.

Lemma mapQueue_length (payload : QueuePayload) (now : Z) (prev : list QueueFile)
  (metas : gmap string Meta) :
  length (V1.mapQueue payload now prev metas).1 = length prev.
Proof.
  revert metas. induction prev as [|x rest IH]; intros metas; [done|].
  simpl. destruct (V1.queueItemUpdate payload now x metas) as [x' metas1].
  specialize (IH metas1).
  destruct (V1.mapQueue payload now rest metas1) as [rest' metas2].
  simpl in *. by rewrite IH.
Qed.

Lemma mapQueue_other_key (payload : QueuePayload) (now : Z) (prev : list QueueFile)
  (metas : gmap string Meta) (k : string) :
  k ≠ qp_id payload →
  (V1.mapQueue payload now prev metas).2 !! k = metas !! k.
Proof.
  intros Hk. revert metas. induction prev as [|x rest IH]; intros metas; [done|].
  simpl.
  pose proof (queueItemUpdate_other_key payload now x metas k Hk) as Hx.
  destruct (V1.queueItemUpdate payload now x metas) as [x' metas1].
  specialize (IH metas1).
  destruct (V1.mapQueue payload now rest metas1) as [rest' metas2].
  simpl in *. by rewrite IH.
Qed.

Lemma mapQueue_terminal_key (payload : QueuePayload) (now : Z)
  (prev : list QueueFile) (metas : gmap string Meta) :
  qp_status payload ≠ QProcessing →
  (∃ item, item ∈ prev ∧ q_id item = qp_id payload) →
  (V1.mapQueue payload now prev metas).2 !! qp_id payload = None.
Proof.
  intros Hst. revert metas.
  induction prev as [|x rest IH]; intros metas (item & Hin & Hid).
  - by apply not_elem_of_nil in Hin.
  - simpl.
    pose proof (queueItemUpdate_terminal_key payload now x metas Hst) as Hx.
    destruct (V1.queueItemUpdate payload now x metas) as [x' metas1].
    destruct (decide (Exists (λ y, q_id y = qp_id payload) rest))
      as [Hrest|Hrest].
    + apply Exists_exists in Hrest. specialize (IH metas1 Hrest).
      by destruct (V1.mapQueue payload now rest metas1).
    + assert (Hno : ∀ y, y ∈ rest → q_id y ≠ qp_id payload)
        by (intros y Hy Hyid; apply Hrest, Exists_exists; eauto).
      rewrite (mapQueue_no_match payload now rest metas1 Hno). simpl in *.
      apply elem_of_cons in Hin as [-> | Hin]; [|by apply Hno in Hin].
      by rewrite decide_True in Hx.
Qed.

(** A 'processing:queue' event changes only the queue and the sample
    windows of the queue. The queue keeps its length and order, and every
    item keeps its id, labels and paths; items of another id are untouched;
    an item of the event's id takes the status and the progress of the event,
    its ETA becomes 0 on 'completed' and is kept on 'error' and 'pending'.
    The windows of other ids are untouched, and an event that is not
    'processing' discards the window of its id. *)
Theorem queue_event_updates (payload : QueuePayload) (now : Z) (s : V1.State) :
  let s' := V1.onQueueEvent payload now s in
  s' = V1.set_queueMeta (V1.queueMeta s') (V1.set_queue (V1.queue s') s)
  ∧ length (V1.queue s') = length (V1.queue s)
  ∧ (∀ i item,
       V1.queue s !! i = Some item →
       ∃ item',
         V1.queue s' !! i = Some item'
         ∧ (q_id item', q_hdrFile item', q_dvFile item', q_outputFile item',
            q_hdrPath item', q_dvPath item', q_outputPath item')
           = (q_id item, q_hdrFile item, q_dvFile item, q_outputFile item,
              q_hdrPath item, q_dvPath item, q_outputPath item)
         ∧ (q_id item ≠ qp_id payload → item' = item)
         ∧ (q_id item = qp_id payload →
            q_status item' = qp_status payload
            ∧ q_progress item' = qp_progress payload
            ∧ (qp_status payload = QCompleted → q_etaSeconds item' = Some 0%Z)
            ∧ (qp_status payload = QError ∨ qp_status payload = QPending →
               q_etaSeconds item' = q_etaSeconds item)))
  ∧ (∀ k, k ≠ qp_id payload → V1.queueMeta s' !! k = V1.queueMeta s !! k)
  ∧ (qp_status payload ≠ QProcessing →
     (∃ item, item ∈ V1.queue s ∧ q_id item = qp_id payload) →
     V1.queueMeta s' !! qp_id payload = None).
Proof.
  intros s'. subst s'. unfold V1.onQueueEvent.
  pose proof (mapQueue_length payload now (V1.queue s) (V1.queueMeta s)) as Hlen.
  pose proof (mapQueue_lookup payload now (V1.queue s) (V1.queueMeta s)) as Hlook.
  pose proof (mapQueue_other_key payload now (V1.queue s) (V1.queueMeta s)) as Hkey.
  pose proof (mapQueue_terminal_key payload now (V1.queue s) (V1.queueMeta s)) as Hterm.
  destruct (V1.mapQueue payload now (V1.queue s) (V1.queueMeta s))
    as [queue' metas'].
  simpl in *. split; [by destruct s|]. split; [by destruct s|].
  split; [|split].
  - intros i item Hi. destruct (Hlook i item Hi) as (metas0 & H0).
    exists (V1.queueItemUpdate payload now item metas0).1.
    split; [by destruct s|]. apply queueItemUpdate_item.
  - intros k Hk. rewrite <- (Hkey k Hk). by destruct s.
  - intros Hst Hex. rewrite <- (Hterm Hst Hex). by destruct s.
Qed.

Lemma queue_event_updates_witness :
  let item :=
    mkQueueFile "a" "hdr" "dv" "DV.HDR" "hdr" "dv" "" QProcessing (num 80)
      None (Some 12%Z) None None in
  let s :=
    V1.set_queueMeta {[ "a" := mkMeta 0 (num 80) [mkSample 5 (num 80)] ]}
      (V1.set_queue [item] V1.initialState) in
  V1.queueMeta
    (V1.onQueueEvent (mkQueuePayload "a" QCompleted (num 100) None None None) 9 s)
    !! "a" = None.
Proof.
  intros item s.
  apply (proj2 (proj2 (proj2 (proj2
           (queue_event_updates (mkQueuePayload "a" QCompleted (num 100) None None None)
              9 s))))).
  - discriminate.
  - exists item. split; [by apply list_elem_of_singleton | reflexivity].
Defined.

(** ** File events *)

Lemma upsert_ids (id : string) (next : FileProgressEntry)
  (l : list FileProgressEntry) :
  fp_id next = id →
  map fp_id (map (λ item, if decide (fp_id item = id) then next else item) l)
  = map fp_id l.
Proof.
  intros Hid. induction l as [|x l IH]; [done|]. simpl. rewrite IH.
  case_decide; congruence.
Qed.

Lemma find_file_none_inv (id : string) (l : list FileProgressEntry) :
  List.find (λ item, bool_decide (fp_id item = id)) l = None → id ∉ map fp_id l.
Proof.
  intros Hf Hin. apply list_elem_of_fmap in Hin as (x & -> & Hx).
  apply list_elem_of_In in Hx.
  pose proof (List.find_none _ _ Hf x Hx) as Hb. simpl in Hb.
  by apply bool_decide_eq_false in Hb.
Qed.

Lemma onFileEvent_ids (payload : FileProgressPayload) (now : Z) (s : V1.State) :
  NoDup (map fp_id (V1.fileProgress s)) →
  NoDup (map fp_id (V1.fileProgress (V1.onFileEvent payload now s))).
Proof.
  intros Hnd. unfold V1.onFileEvent.
  destruct (computeSmoothedEta _ now (fpp_progress payload)) as [smoothed meta1].
  destruct (List.find _ (V1.fileProgress s)) as [entry|] eqn:E.
  - destruct s; simpl in *. by rewrite upsert_ids.
  - apply find_file_none_inv in E. destruct s; simpl in *.
    rewrite map_app. simpl. apply NoDup_app. split; [done|].
    split; [|apply NoDup_singleton].
    intros x Hx Hx'. apply list_elem_of_singleton in Hx'. by subst.
Qed.

Lemma step_file_ids (e : V1.Event) (s : V1.State) :
  NoDup (map fp_id (V1.fileProgress s)) →
  NoDup (map fp_id (V1.fileProgress (V1.step e s).1)).
Proof.
  intros H.
  assert (Hframe : ∀ s', V1.fileProgress s' = V1.fileProgress s →
                         NoDup (map fp_id (V1.fileProgress s')))
    by (by intros s' ->).
  destruct e; simpl; try (apply Hframe; by destruct s).
  - apply Hframe. unfold V1.browseFile.
    destruct tauri, target, answer as [a|]; simpl; try done;
      try destruct (Js.truthy a); by destruct s.
  - apply Hframe. unfold V1.browseFolder.
    destruct tauri, target, answer as [a|]; simpl; try done;
      try destruct (Js.truthy a); by destruct s.
  - apply Hframe. unfold V1.handleDropAssign.
    repeat match goal with |- context [if ?b then _ else _] => destruct b end;
      by destruct s.
  - apply Hframe. unfold V1.addToQueue. destruct (_ || _); by destruct s.
  - apply Hframe. unfold V1.savePreset.
    destruct name as [name|]; try done; destruct (Js.truthy name); by destruct s.
  - apply Hframe. unfold V1.handlePresetChange, V1.savePreset, V1.applyPreset.
    destruct (String.eqb value "__save__");
      repeat match goal with
             | |- context [match ?b with _ => _ end] => destruct b
             end; by destruct s.
  - unfold V1.handleStart.
    repeat match goal with |- context [if ?b then _ else _] => destruct b end;
      simpl; try (apply Hframe; by destruct s); destruct s; simpl; constructor.
  - unfold V1.handleStop. destruct tauri; simpl; [done|].
    destruct s; simpl; constructor.
  - destruct s; simpl; constructor.
  - apply Hframe. unfold V1.handleReorderQueue.
    repeat match goal with |- context [match ?b with _ => _ end] => destruct b end;
      by destruct s.
  - apply Hframe. unfold V1.onToggle. case_decide; by destruct s.
  - apply Hframe. unfold V1.onToggleAll. case_decide; by destruct s.
  - apply Hframe. unfold V1.onQueueEvent. destruct (V1.mapQueue _ _ _ _).
    by destruct s.
  - by apply onFileEvent_ids.
  - apply Hframe. unfold V1.onStatusEvent.
    case_decide; [destruct nextStatus|]; by destruct s.
  - constructor.
Qed.

(** In every reachable state the file-progress list holds at most one entry
    per file id: a 'processing:file' event replaces the entry of a known id in
    place (same position, same length) and appends for a new id, and no other
    handler adds entries. *)
Theorem file_progress_ids_unique (s : V1.State) :
  V1.reachable s → NoDup (map fp_id (V1.fileProgress s)).
Proof.
  induction 1 as [|e s _ IH]; [constructor|]. by apply step_file_ids.
Qed.

Lemma file_progress_ids_unique_witness :
  let p1 := mkFilePayload "f1" "q1" "a.mkv" (num 10) in
  let p2 := mkFilePayload "f1" "q1" "a.mkv" (num 20) in
  NoDup (map fp_id
           (V1.fileProgress
              (V1.step (V1.EvFile p2 2000)
                 (V1.step (V1.EvFile p1 1000) V1.initialState).1).1)).
Proof.
  intros p1 p2. apply file_progress_ids_unique.
  apply V1.reachable_step, V1.reachable_step, V1.reachable_init.
Defined.

(** ** The status guard *)

Lemma statusRef_frame (e : V1.Event) (s : V1.State) :
  match e with
  | V1.EvStatus _ | V1.EvRestart _ _ _ => False
  | _ => True
  end →
  V1.statusRef (V1.step e s).1 = V1.statusRef s.
Proof.
  intros He. destruct e; simpl; try done; try by destruct s.
  - unfold V1.browseFile.
    destruct tauri, target, answer as [a|]; simpl; try done;
      try destruct (Js.truthy a); by destruct s.
  - unfold V1.browseFolder.
    destruct tauri, target, answer as [a|]; simpl; try done;
      try destruct (Js.truthy a); by destruct s.
  - unfold V1.handleDropAssign.
    repeat match goal with |- context [if ?b then _ else _] => destruct b end;
      by destruct s.
  - unfold V1.addToQueue. destruct (_ || _); by destruct s.
  - unfold V1.savePreset.
    destruct name as [name|]; try done; destruct (Js.truthy name); by destruct s.
  - unfold V1.handlePresetChange, V1.savePreset, V1.applyPreset.
    destruct (String.eqb value "__save__");
      repeat match goal with
             | |- context [match ?b with _ => _ end] => destruct b
             end; by destruct s.
  - unfold V1.handleStart.
    repeat match goal with |- context [if ?b then _ else _] => destruct b end;
      by destruct s.
  - unfold V1.handleStop. destruct tauri; by destruct s.
  - unfold V1.handleReorderQueue.
    repeat match goal with |- context [match ?b with _ => _ end] => destruct b end;
      by destruct s.
  - unfold V1.onToggle. case_decide; by destruct s.
  - unfold V1.onToggleAll. case_decide; by destruct s.
  - unfold V1.onQueueEvent. destruct (V1.mapQueue _ _ _ _). by destruct s.
  - unfold V1.onFileEvent. destruct (computeSmoothedEta _ _ _). by destruct s.
Qed.

(** The notification guard follows the status events, not the displayed
    status: a status event sets both the displayed status and the remembered
    one to its status; every handler other than the status listener (and a
    restart) leaves the remembered status alone, also those that set the
    displayed status themselves (start, stop, clear, a rejected start); so a
    status event that repeats the status of the last status event issues no
    command, whatever happened in the view in between. *)
Theorem status_guard_follows_events (s : V1.State) :
  (∀ st, V1.status (V1.onStatusEvent st s).1 = st
         ∧ V1.statusRef (V1.onStatusEvent st s).1 = st)
  ∧ (∀ e,
       match e with
       | V1.EvStatus _ | V1.EvRestart _ _ _ => False
       | _ => True
       end →
       V1.statusRef (V1.step e s).1 = V1.statusRef s
       ∧ (V1.onStatusEvent (V1.statusRef s) (V1.step e s).1).2 = []).
Proof.
  split.
  - intros st. split; [|apply statusRef_after_event].
    unfold V1.onStatusEvent. case_decide; [destruct st|]; by destruct s.
  - intros e He. pose proof (statusRef_frame e s He) as Hf. split; [done|].
    unfold V1.onStatusEvent. rewrite Hf.
    by rewrite decide_False by (intros H; by apply H).
Qed.

Lemma status_guard_follows_events_witness :
  let s := (V1.step (V1.EvStatus Completed) V1.initialState).1 in
  V1.statusRef (V1.step V1.EvClear s).1 = Completed
  ∧ (V1.onStatusEvent Completed (V1.step V1.EvClear s).1).2 = [].
Proof.
  intros s.
  apply (proj2 (status_guard_follows_events s) V1.EvClear). exact I.
Defined.

(** ** Drag-and-drop assignment *)

Lemma lower_ascii_idem (c : ascii) : Js.lower_ascii (Js.lower_ascii c) = Js.lower_ascii c.
Proof. destruct c as [[] [] [] [] [] [] [] []]; vm_compute; reflexivity. Qed.

Lemma toLowerCase_idem (s : string) : Js.toLowerCase (Js.toLowerCase s) = Js.toLowerCase s.
Proof. induction s as [|c s IH]; [done|]. simpl. by rewrite lower_ascii_idem, IH. Qed.

Lemma startsWith_prefix (s a b : string) :
  Js.startsWith s (a +:+ b) = true → Js.startsWith s a = true.
Proof.
  revert s. induction a as [|c a IH]; intros s; [by destruct s|].
  destruct s as [|d s]; simpl; [done|].
  destruct (Ascii.eqb c d); [apply IH | done].
Qed.

Lemma includes_unfold (s sub : string) :
  Js.includes s sub =
  if Js.startsWith s sub then true
  else match s with
       | EmptyString => false
       | String _ s' => Js.includes s' sub
       end.
Proof. by destruct s. Qed.

Lemma includes_prefix (s a b : string) :
  Js.includes s (a +:+ b) = true → Js.includes s a = true.
Proof.
  induction s as [|c s IH].
  - rewrite (includes_unfold "" a), (includes_unfold "" (a +:+ b)).
    destruct (Js.startsWith "" (a +:+ b)) eqn:E; [|done].
    intros _. by rewrite (startsWith_prefix _ _ _ E).
  - rewrite (includes_unfold (String c s) a), (includes_unfold (String c s) (a +:+ b)).
    destruct (Js.startsWith (String c s) (a +:+ b)) eqn:E.
    + intros _. by rewrite (startsWith_prefix _ _ _ E).
    + intros H. destruct (Js.startsWith (String c s) a); [done | by apply IH].
Qed.

Lemma includes_prefix_false (s a b : string) :
  Js.includes s a = false → Js.includes s (a +:+ b) = false.
Proof.
  intros H. destruct (Js.includes s (a +:+ b)) eqn:E; [|done].
  apply includes_prefix in E. congruence.
Qed.

Lemma hdr10_variants (label : string) :
  Js.includes label "hdr10" = false →
  Js.includes label "hdr10+" = false ∧ Js.includes label "hdr10plus" = false.
Proof.
  intros H. split.
  - exact (includes_prefix_false label "hdr10" "+" H).
  - exact (includes_prefix_false label "hdr10" "plus" H).
Qed.

Lemma hdr_variant (label : string) :
  Js.includes label "hdr" = false → Js.includes label "hdr10" = false.
Proof. intros H. exact (includes_prefix_false label "hdr" "10" H). Qed.

(** The drop heuristic, by keyword of the lower-cased label (the entry name,
    or the path when there is no name):
    - a label containing [hdr10] fills the HDR10+ slot and empties the HDR
      slot (the tests for [hdr10+] and [hdr10plus] add nothing);
    - otherwise a label containing [dv], [dovi] or [dolby] fills the DV slot,
      also when it contains [hdr];
    - otherwise a label containing [hdr] fills the HDR slot and empties the
      HDR10+ slot;
    - a label with no keyword fills the DV slot when it is empty, else the HDR
      slot when it is empty (emptying the HDR10+ slot), and is ignored when
      both are taken.
    Upper-case letters in the name make no difference. *)
Theorem drop_assignment (path : string) (isFolder : bool) (name : option string)
  (s : V1.State) :
  let label := dropLabel path name in
  let s' := V1.handleDropAssign path isFolder name s in
  let dvWord :=
    Js.includes label "dv" || Js.includes label "dovi" || Js.includes label "dolby" in
  let toHdr10plus :=
    V1.update_pathKinds (V1.set_pk_hdr10plus (V1.kindOfDrop isFolder))
      (V1.update_config (λ prev, V1.set_hdrPath "" (V1.set_hdr10plusPath path prev)) s) in
  let toDv :=
    V1.update_pathKinds (V1.set_pk_dv (V1.kindOfDrop isFolder))
      (V1.update_config (V1.set_dvPath path) s) in
  let toHdr :=
    V1.update_pathKinds (V1.set_pk_hdr (V1.kindOfDrop isFolder))
      (V1.update_config (λ prev, V1.set_hdr10plusPath "" (V1.set_hdrPath path prev)) s) in
  (Js.includes label "hdr10" = true → s' = toHdr10plus)
  ∧ (Js.includes label "hdr10" = false → dvWord = true → s' = toDv)
  ∧ (Js.includes label "hdr10" = false → dvWord = false →
     Js.includes label "hdr" = true → s' = toHdr)
  ∧ (Js.includes label "hdr" = false → dvWord = false →
     (V1.dvPath (V1.config s) = "" → s' = toDv)
     ∧ (V1.dvPath (V1.config s) ≠ "" → V1.hdrPath (V1.config s) = "" → s' = toHdr)
     ∧ (V1.dvPath (V1.config s) ≠ "" → V1.hdrPath (V1.config s) ≠ "" → s' = s))
  ∧ (∀ n, V1.handleDropAssign path isFolder (Some (Js.toLowerCase n)) s
          = V1.handleDropAssign path isFolder (Some n) s).
Proof.
  intros label s' dvWord toHdr10plus toDv toHdr.
  assert (Hunfold :
    s' = if Js.includes label "hdr10" || Js.includes label "hdr10+"
            || Js.includes label "hdr10plus"
         then toHdr10plus
         else if dvWord || (negb (Js.truthy (V1.dvPath (V1.config s)))
                            && negb (Js.includes label "hdr"))
         then toDv
         else if Js.includes label "hdr" || negb (Js.truthy (V1.hdrPath (V1.config s)))
         then toHdr else s) by reflexivity.
  split; [|split; [|split; [|split]]].
  - intros H. by rewrite Hunfold, H.
  - intros H Hdv. destruct (hdr10_variants label H) as [H1 H2].
    by rewrite Hunfold, H, H1, H2, Hdv.
  - intros H Hdv Hhdr. destruct (hdr10_variants label H) as [H1 H2].
    rewrite Hunfold, H, H1, H2, Hdv, Hhdr. simpl. by rewrite andb_false_r.
  - intros Hhdr Hdv. pose proof (hdr_variant label Hhdr) as H.
    destruct (hdr10_variants label H) as [H1 H2].
    rewrite Hunfold, H, H1, H2, Hdv, Hhdr. simpl. rewrite andb_true_r.
    split; [|split].
    + intros E. apply truthy_empty in E. by rewrite E.
    + intros E1 E2. apply truthy_nonempty in E1. apply truthy_empty in E2.
      by rewrite E1, E2.
    + intros E1 E2. apply truthy_nonempty in E1, E2. by rewrite E1, E2.
  - intros n. unfold V1.handleDropAssign. by rewrite toLowerCase_idem.
Qed.

Lemma drop_assignment_witness :
  let s := V1.update_config (V1.set_hdrPath "movie.hdr.mkv") V1.initialState in
  V1.handleDropAssign "Movie.HDR10Plus.mkv" false None s
  = V1.update_pathKinds (V1.set_pk_hdr10plus KFile)
      (V1.update_config
         (λ prev, V1.set_hdrPath "" (V1.set_hdr10plusPath "Movie.HDR10Plus.mkv" prev)) s).
Proof.
  intros s.
  apply (proj1 (drop_assignment "Movie.HDR10Plus.mkv" false None s)).
  reflexivity.
Defined.

(** ** Labels of queue entries *)

Lemma startsWith_empty (s : string) : Js.startsWith s "" = true.
Proof. by destruct s. Qed.

Lemma includes_char_cons (c d : ascii) (s : string) :
  Js.includes (String d s) (Js.chr c) = Ascii.eqb c d || Js.includes s (Js.chr c).
Proof.
  rewrite includes_unfold. simpl. rewrite startsWith_empty.
  by destruct (Ascii.eqb c d).
Qed.

Lemma split_no_separator (sep : ascii) (s : string) :
  Js.includes s (Js.chr sep) = false → Js.split sep s = [s].
Proof.
  induction s as [|d s IH]; [done|].
  rewrite includes_char_cons. intros H. apply orb_false_iff in H as [Hd Hs].
  simpl. rewrite Ascii.eqb_sym, Hd. by rewrite (IH Hs).
Qed.

Lemma split_nonempty (sep : ascii) (s : string) : Js.split sep s ≠ [].
Proof.
  destruct s as [|d s]; simpl; [done|].
  destruct (Ascii.eqb d sep); [done|]. by destruct (Js.split sep s).
Qed.

Lemma split_app (sep : ascii) (a b : string) :
  Js.split sep (a +:+ Js.chr sep +:+ b) = Js.split sep a ++ Js.split sep b.
Proof.
  induction a as [|d a IH].
  - simpl. by rewrite Ascii.eqb_refl.
  - change (String d a +:+ Js.chr sep +:+ b)
      with (String d (a +:+ Js.chr sep +:+ b)).
    simpl. rewrite IH. destruct (Ascii.eqb d sep); [done|].
    pose proof (split_nonempty sep a) as Hne.
    by destruct (Js.split sep a).
Qed.

Lemma append_empty_r (s : string) : s +:+ "" = s.
Proof.
  induction s as [|c s IH]; [done|].
  change (String c s +:+ "") with (String c (s +:+ "")). by rewrite IH.
Qed.

(** The label of a queue entry, [path.split('\\').filter(Boolean).pop() || path]:
    a path without a backslash is its own label (forward slashes do not
    separate); the label of [dir\name], and of [dir\name\], is [name] when
    [name] is non-empty and has no backslash; the label is empty only for the
    empty path. *)
Theorem baseLabel_cases (path : string) :
  (Js.includes path (Js.chr Js.backslash) = false → V1.baseLabel path = path)
  ∧ (∀ dir name,
       name ≠ "" → Js.includes name (Js.chr Js.backslash) = false →
       (path = dir +:+ Js.chr Js.backslash +:+ name → V1.baseLabel path = name)
       ∧ (path = dir +:+ Js.chr Js.backslash +:+ name +:+ Js.chr Js.backslash →
          V1.baseLabel path = name))
  ∧ (V1.baseLabel path = "" → path = "").
Proof.
  split; [|split].
  - intros H. unfold V1.baseLabel. rewrite (split_no_separator _ _ H).
    destruct path; [done|]. simpl. done.
  - intros dir name Hne Hname.
    assert (Hlast : ∀ l, Js.pop (Js.filterBoolean (l ++ [name])) = Some name).
    { intros l. unfold Js.pop, Js.filterBoolean. rewrite List.filter_app. simpl.
      apply truthy_nonempty in Hne. rewrite Hne. apply last_snoc. }
    split; intros ->; unfold V1.baseLabel.
    + rewrite split_app, (split_no_separator _ _ Hname), Hlast.
      unfold Js.or_else. apply truthy_nonempty in Hne. by rewrite Hne.
    + replace (dir +:+ Js.chr Js.backslash +:+ name +:+ Js.chr Js.backslash)
        with (dir +:+ Js.chr Js.backslash +:+ (name +:+ Js.chr Js.backslash +:+ ""))
        by (by rewrite append_empty_r).
      rewrite split_app, split_app, (split_no_separator _ _ Hname).
      change (Js.split Js.backslash "") with [""].
      rewrite app_assoc. unfold Js.pop, Js.filterBoolean at 1.
      rewrite List.filter_app. simpl. rewrite app_nil_r.
      fold (Js.filterBoolean (Js.split Js.backslash dir ++ [name])).
      fold (Js.pop (Js.filterBoolean (Js.split Js.backslash dir ++ [name]))).
      rewrite Hlast. unfold Js.or_else. apply truthy_nonempty in Hne.
      by rewrite Hne.
  - unfold V1.baseLabel.
    destruct (Js.pop _) as [label|] eqn:E; [|done].
    intros H. apply or_else_empty in H. by destruct H.
Qed.

Lemma baseLabel_cases_witness :
  V1.baseLabel ("C:" +:+ Js.chr Js.backslash +:+ "Videos" +:+ Js.chr Js.backslash
                +:+ "movie.mkv") = "movie.mkv"
  ∧ V1.baseLabel "C:/Videos/movie.mkv" = "C:/Videos/movie.mkv".
Proof.
  split.
  - refine (proj1 (proj1 (proj2 (baseLabel_cases _))
                     ("C:" +:+ Js.chr Js.backslash +:+ "Videos") "movie.mkv" _ _) _);
      [discriminate | reflexivity | reflexivity].
  - apply (proj1 (baseLabel_cases "C:/Videos/movie.mkv")). reflexivity.
Defined.

(** ** The default output name, when it is as intended *)

Lemma replace_absent (s pat rep : string) :
  Js.includes s pat = false → Js.replace s pat rep = s.
Proof.
  induction s as [|c s IH]; rewrite includes_unfold, replace_unfold;
    destruct (Js.startsWith _ pat); try done.
  intros H. by rewrite IH.
Qed.

Lemma append_assoc_str (a b c : string) : (a +:+ b) +:+ c = a +:+ (b +:+ c).
Proof.
  induction a as [|x a IH]; [done|].
  change ((String x a +:+ b) +:+ c) with (String x ((a +:+ b) +:+ c)).
  change (String x a +:+ (b +:+ c)) with (String x (a +:+ (b +:+ c))).
  by rewrite IH.
Qed.

Lemma includes_skip (a x pat : string) :
  Js.startsWith x pat = true → Js.includes (a +:+ x) pat = true.
Proof.
  intros H. induction a as [|c a IH].
  - change ("" +:+ x) with x. rewrite includes_unfold. by rewrite H.
  - change (String c a +:+ x) with (String c (a +:+ x)).
    rewrite includes_unfold.
    destruct (Js.startsWith (String c (a +:+ x)) pat); [done | exact IH].
Qed.

Lemma startsWith_mkv_overlap (a rest : string) :
  a ≠ "" →
  Js.startsWith (a +:+ ".mkv" +:+ rest) ".mkv" = Js.startsWith (a +:+ ".mk") ".mkv".
Proof.
  intros Hne.
  destruct a as [|c1 [|c2 [|c3 [|c4 a]]]]; try done; try reflexivity.
  change (String c1 (String c2 (String c3 (String c4 a))) +:+ ".mkv" +:+ rest)
    with (String c1 (String c2 (String c3 (String c4 (a +:+ ".mkv" +:+ rest))))).
  change (String c1 (String c2 (String c3 (String c4 a))) +:+ ".mk")
    with (String c1 (String c2 (String c3 (String c4 (a +:+ ".mk"))))).
  cbn [Js.startsWith]. by rewrite !startsWith_empty.
Qed.

(** The default output name of a single-mode entry,
    [hdrLabel.replace('.mkv', '') + '.hybrid.mkv']: a label without [.mkv]
    only gets the suffix appended; a label [base.mkv] whose only [.mkv] is the
    trailing one becomes [base.hybrid.mkv]; in general the leftmost [.mkv] is
    the one removed. *)
Theorem defaultOutputName_cases (hdrLabel : string) :
  (Js.includes hdrLabel ".mkv" = false →
   V1.defaultOutputName hdrLabel = hdrLabel +:+ ".hybrid.mkv")
  ∧ (∀ base rest,
       hdrLabel = base +:+ ".mkv" +:+ rest →
       (∀ a1 a2, base = a1 +:+ a2 → a2 ≠ "" →
                 Js.startsWith (a2 +:+ ".mkv" +:+ rest) ".mkv" = false) →
       V1.defaultOutputName hdrLabel = base +:+ rest +:+ ".hybrid.mkv")
  ∧ (∀ base,
       hdrLabel = base +:+ ".mkv" →
       Js.includes (base +:+ ".mk") ".mkv" = false →
       V1.defaultOutputName hdrLabel = base +:+ ".hybrid.mkv").
Proof.
  unfold V1.defaultOutputName. split; [|split].
  - intros H. by rewrite replace_absent.
  - intros base rest -> Hfirst.
    rewrite (replace_leftmost base rest ".mkv" "" Hfirst).
    change ("" +:+ rest) with rest. by rewrite append_assoc_str.
  - intros base -> Hbase.
    rewrite <- (append_empty_r (base +:+ ".mkv")) at 1.
    rewrite append_assoc_str.
    rewrite (replace_leftmost base "" ".mkv" "");
      [change ("" +:+ "") with ""; by rewrite append_empty_r|].
    intros a1 a2 -> Hne. rewrite (startsWith_mkv_overlap a2 "" Hne).
    destruct (Js.startsWith (a2 +:+ ".mk") ".mkv") eqn:E; [|done].
    rewrite append_assoc_str in Hbase.
    by rewrite (includes_skip a1 _ _ E) in Hbase.
Qed.

Lemma defaultOutputName_cases_witness :
  V1.defaultOutputName "movie.hdr.mkv" = "movie.hdr.hybrid.mkv"
  ∧ V1.defaultOutputName "movie.hevc" = "movie.hevc.hybrid.mkv".
Proof.
  split.
  - apply (proj2 (proj2 (defaultOutputName_cases "movie.hdr.mkv")) "movie.hdr");
      reflexivity.
  - apply (proj1 (defaultOutputName_cases "movie.hevc")). reflexivity.
Defined.

(** ** Presets *)

Lemma find_preset_fresh (id : string) (l : list V1.Preset) (p : V1.Preset) :
  (∀ q, q ∈ l → V1.preset_id q ≠ id) → V1.preset_id p = id →
  List.find (λ item, bool_decide (V1.preset_id item = id)) (l ++ [p]) = Some p.
Proof.
  intros Hfresh Hp. induction l as [|q l IH]; simpl.
  - by rewrite bool_decide_eq_true_2.
  - rewrite bool_decide_eq_false_2 by (apply Hfresh; by left).
    apply IH. intros q' Hq'. apply Hfresh. by right.
Qed.

Lemma savePreset_presets (name id : string) (s : V1.State) :
  name ≠ "" →
  V1.presets (V1.savePreset (Some name) id s)
  = V1.presets s
    ++ [V1.mkPreset id name (V1.config s) (V1.toolPaths s) (V1.dvDelayInput s)
          (V1.hdr10plusDelayInput s) (V1.showDelays s)].
Proof.
  intros Hname. apply truthy_nonempty in Hname.
  unfold V1.savePreset. rewrite Hname. by destruct s.
Qed.

(** Saving a preset under a fresh id and applying it later, whatever the
    view did in between to anything but the preset list, brings back the
    configuration, the tool paths and the delay inputs of the moment of
    saving. The path kinds are not part of a preset: after applying, each kind
    is inferred from the path string, 'folder' only for a trailing separator
    and 'unknown' for an empty path. Applying an id that no preset has changes
    nothing, and a cancelled or empty name saves nothing. *)
Theorem preset_round_trip (id : string) (s : V1.State) :
  (∀ name later,
     name ≠ "" →
     (∀ p, p ∈ V1.presets s → V1.preset_id p ≠ id) →
     V1.presets later = V1.presets (V1.savePreset (Some name) id s) →
     let s' := V1.applyPreset id later in
     V1.config s' = V1.config s
     ∧ V1.toolPaths s' = V1.toolPaths s
     ∧ V1.dvDelayInput s' = V1.dvDelayInput s
     ∧ V1.hdr10plusDelayInput s' = V1.hdr10plusDelayInput s
     ∧ V1.showDelays s' = V1.showDelays s
     ∧ V1.pathKinds s'
       = V1.mkPathKinds (inferPathKind (V1.hdrPath (V1.config s)))
           (inferPathKind (V1.hdr10plusPath (V1.config s)))
           (inferPathKind (V1.dvPath (V1.config s)))
           (inferPathKind (V1.outputPath (V1.config s))))
  ∧ ((∀ p, p ∈ V1.presets s → V1.preset_id p ≠ id) → V1.applyPreset id s = s)
  ∧ V1.savePreset None id s = s
  ∧ V1.savePreset (Some "") id s = s.
Proof.
  split; [|split; [|split]]; try done.
  - intros name later Hname Hfresh Hlater s'. subst s'.
    unfold V1.applyPreset. rewrite Hlater, (savePreset_presets name id s Hname).
    rewrite find_preset_fresh by done. by destruct later.
  - intros Hfresh. unfold V1.applyPreset.
    destruct (List.find _ (V1.presets s)) as [p|] eqn:E; [|done].
    apply List.find_some in E as [Hin Hp]. apply bool_decide_eq_true in Hp.
    apply list_elem_of_In in Hin. by apply Hfresh in Hin.
Qed.

Lemma preset_round_trip_witness :
  let s := V1.browseFolder true V1.TDv (Some "D:/DV")
             (V1.browseFolder true V1.THdr (Some "D:/HDR") V1.initialState) in
  V1.derivedMode s = Batch
  ∧ V1.config (V1.applyPreset "p1" (V1.savePreset (Some "folders") "p1" s))
    = V1.config s
  ∧ V1.derivedMode (V1.applyPreset "p1" (V1.savePreset (Some "folders") "p1" s))
    = Single.
Proof.
  intros s. split; [reflexivity|]. split; [|reflexivity].
  refine (proj1 (proj1 (preset_round_trip "p1" s) "folders" _ _ _ eq_refl)).
  - discriminate.
  - intros p Hp. by apply not_elem_of_nil in Hp.
Defined.

(** ** The Start button and the submission handler *)

(** The guard of the Start button and the validation of [handleStart]. In the
    revisions with the selection check the button is disabled exactly in the
    states in which the handler rejects the submission (issues no command).
    In the revision without it every state with the button enabled is
    accepted, and the request then carries the selected entries in batch mode
    and no entry in single mode; the handler rejects only states in which the
    button is disabled. *)
Theorem start_button_guard (logId : string) (now : Z) :
  (∀ tauri (s : V2.State),
     V2.startDisabled s = true ↔ (V2.handleStart tauri logId now s).2 = [])
  ∧ (∀ tauri dvDelay hdr10plusDelay (s : V1.State),
       V1.startDisabled s = false →
       (V1.handleStart tauri dvDelay hdr10plusDelay logId now s).2 ≠ []
       ∧ ∃ r,
           (V1.handleStart true dvDelay hdr10plusDelay logId now s).2
           = [V1.StartProcessing r]
           ∧ V1.r_queue r
             = match V1.derivedMode s with
               | Batch =>
                   filter (λ item, q_id item ∈ V1.selectedQueueIds s) (V1.queue s)
               | Single => []
               end)
  ∧ (∀ tauri dvDelay hdr10plusDelay (s : V1.State),
       (V1.handleStart tauri dvDelay hdr10plusDelay logId now s).2 = [] →
       V1.startDisabled s = true).
Proof.
  split; [|split].
  - intros tauri s. unfold V2.startDisabled, V2.handleStart.
    destruct (V2.derivedMode s); simpl.
    + destruct (negb _ || negb _); destruct tauri; simpl; split; done.
    + destruct (bool_decide (length (V2.queue s) = 0%nat)); simpl; [done|].
      destruct (bool_decide (size (V2.selectedQueueIds s) = 0%nat)); simpl; [done|].
      destruct tauri; simpl; split; done.
  - intros tauri dvDelay hdr10plusDelay s. unfold V1.startDisabled, V1.handleStart.
    destruct (V1.derivedMode s); simpl.
    + intros ->. simpl. split; [destruct tauri; simpl; discriminate|].
      eexists. split; reflexivity.
    + intros H. apply orb_false_iff in H as [Hq Hsel]. rewrite Hq. simpl.
      split; [destruct tauri; simpl; discriminate|].
      eexists. split; [reflexivity|]. cbn [V1.r_queue].
      apply bool_decide_eq_false in Hsel.
      destruct (decide (0 < size (V1.selectedQueueIds s))%nat); [done | lia].
  - intros tauri dvDelay hdr10plusDelay s. unfold V1.startDisabled, V1.handleStart.
    destruct (V1.derivedMode s); simpl.
    + destruct (negb _ || negb _); [done|]. by destruct tauri.
    + destruct (bool_decide (length (V1.queue s) = 0%nat)); [done|].
      by destruct tauri.
Qed.

Lemma start_button_guard_witness :
  let a :=
    mkQueueFile "a" "hdr" "dv" "DV.HDR" "hdr" "dv" "" QPending (num 0)
      None None None None in
  let s :=
    V1.set_selectedQueueIds {[ "a" ]} (V1.set_queue [a] V1.initialState) in
  (V1.handleStart true (num 0) (num 0) "log-1" 0 s).2 ≠ [].
Proof.
  intros a s.
  apply (proj1 (proj2 (start_button_guard "log-1" 0)) true (num 0) (num 0) s).
  vm_compute. reflexivity.
Defined.

(** ** Bounds of the smoothed ETA *)

Lemma num_pos (z : Z) : (0 < z)%Z → (0 < num z)%Qc.
Proof.
  intros H. unfold Qclt, num. simpl. rewrite !Qred_correct.
  unfold Qlt. simpl. lia.
Qed.

Lemma foldl_rates_pos (l : list Qc) (acc : Qc) :
  (0 < acc)%Qc → Forall (λ r, (0 < r)%Qc) l →
  (0 < foldl (λ sum rate, (sum + rate)%Qc) acc l)%Qc.
Proof.
  revert acc. induction l as [|r l IH]; intros acc Hacc Hl; [done|].
  simpl. apply Forall_cons in Hl as [Hr Hl]. apply IH; [|done].
  apply Qcplus_pos_nonneg; [done | by apply Qclt_le_weak].
Qed.

Lemma sum_rates_pos (l : list Qc) :
  l ≠ [] → Forall (λ r, (0 < r)%Qc) l → (0 < sum_rates l)%Qc.
Proof.
  intros Hne Hl. destruct l as [|r l]; [done|].
  apply Forall_cons in Hl as [Hr Hl]. unfold sum_rates. simpl.
  apply foldl_rates_pos; [|done].
  change (num 0 + r)%Qc with (0 + r)%Qc. by rewrite Qcplus_0_l.
Qed.

Lemma positive_rates_Forall (rates : list Qc) :
  Forall (λ r, (0 < r)%Qc) (positive_rates rates).
Proof.
  apply Forall_forall. intros r Hr. by apply list_elem_of_filter in Hr as [Hr _].
Qed.

Lemma averageRate_pos (rates : list Qc) :
  rates ≠ [] → Forall (λ r, (0 < r)%Qc) rates → (0 < averageRate rates)%Qc.
Proof.
  intros Hne Hl. unfold averageRate, Qcdiv.
  apply Qcmult_pos_pos; [by apply sum_rates_pos|].
  apply Qcinv_pos, num_pos. destruct rates; [done | simpl; lia].
Qed.

Lemma Math_max_nonneg (x : Qc) : (0 <= Math_max (num 0) x)%Qc.
Proof.
  unfold Math_max. case_decide as H; [by apply Qclt_le_weak | apply Qcle_refl].
Qed.

Lemma Math_round_nonneg (x : Qc) : (0 <= x)%Qc → (0 ≤ Math_round x)%Z.
Proof.
  intros Hx. unfold Math_round.
  assert (H : (0 <= x + Q2Qc (1 # 2))%Qc).
  { apply Qcplus_nonneg_nonneg; [done|]. by vm_compute. }
  change 0%Z with (Qfloor 0). by apply Qfloor_resp_le.
Qed.

Lemma last_slice_last {A} (n : nat) (l : list A) (x : A) :
  (0 < n)%nat → last (slice_last n (l ++ [x])) = Some x.
Proof.
  intros Hn. unfold slice_last. rewrite length_app. simpl.
  rewrite drop_app_le by lia. apply last_snoc.
Qed.

Lemma slice_last_min {A} (n : nat) (l : list A) :
  length (slice_last n l) = Nat.min n (length l).
Proof. unfold slice_last. rewrite length_drop. lia. Qed.

(** Whenever the smoothing returns an ETA, it is not negative, and it is 0
    once the progress has reached 100, whatever the samples and the clock.
    After a sample with positive progress, the window ends with that sample
    and holds the smaller of 6 and one more than the number of samples kept
    before. *)
Theorem eta_bounds (meta : Meta) (now : Z) (progress : Qc) :
  (∀ eta,
     (computeSmoothedEta meta now progress).1 = Some eta →
     (0 ≤ eta)%Z ∧ ((num 100 <= progress)%Qc → eta = 0%Z))
  ∧ ((0 < progress)%Qc →
     last (m_samples (computeSmoothedEta meta now progress).2)
     = Some (mkSample now progress)
     ∧ length (m_samples (computeSmoothedEta meta now progress).2)
       = Nat.min 6 (S (length (m_samples meta)))).
Proof.
  split.
  - intros eta Heta. destruct (Qclt_le_dec 0 progress) as [Hpos|Hneg];
      [|by rewrite computeSmoothedEta_nonpositive in Heta].
    rewrite computeSmoothedEta_positive in Heta by done. simpl in Heta.
    set (rates := positive_rates _) in Heta.
    pose proof (positive_rates_Forall
                  (sample_rates
                     (slice_last etaAveragingWindow
                        (m_samples meta ++ [mkSample now progress])))) as Hall.
    fold rates in Hall.
    destruct rates as [|r rest]; [done|].
    injection Heta as <-.
    assert (Havg : (0 < averageRate (r :: rest))%Qc) by (by apply averageRate_pos).
    split.
    + apply Math_round_nonneg. unfold Qcdiv.
      apply Qcmult_nonneg_nonneg; [apply Math_max_nonneg|].
      by apply Qclt_le_weak, Qcinv_pos.
    + intros H100.
      assert (Hmax : Math_max (num 0) (num 100 - progress)%Qc = num 0).
      { unfold Math_max. case_decide as Hlt; [|done]. exfalso.
        apply Qcle_minus_iff in H100.
        assert (Hle : (num 100 - progress <= 0)%Qc).
        { apply Qcle_minus_iff. rewrite Qcplus_0_l.
          replace (- (num 100 - progress))%Qc with (progress + - num 100)%Qc by ring.
          exact H100. }
        exact (Qclt_not_le _ _ Hlt Hle). }
      rewrite Hmax. change (num 0) with 0%Qc. unfold Qcdiv.
      rewrite Qcmult_0_l. by vm_compute.
  - intros Hpos. rewrite computeSmoothedEta_positive by done.
    cbn [snd m_samples]. split.
    + apply last_slice_last. unfold etaAveragingWindow. lia.
    + rewrite slice_last_min, length_app.
      change (length [mkSample now progress]) with 1%nat.
      unfold etaAveragingWindow. lia.
Qed.

Lemma eta_bounds_witness :
  let meta := mkMeta 0 (num 90) [mkSample 1000 (num 90)] in
  (computeSmoothedEta meta 2000 (num 120)).1 = Some 0%Z
  ∧ last (m_samples (computeSmoothedEta meta 2000 (num 120)).2)
    = Some (mkSample 2000 (num 120)).
Proof.
  intros meta. split.
  - destruct (computeSmoothedEta meta 2000 (num 120)) as [[eta|] meta'] eqn:E.
    + pose proof (proj1 (eta_bounds meta 2000 (num 120)) eta) as H.
      rewrite E in H. destruct (H eq_refl) as [_ H0].
      simpl. f_equal. apply H0. vm_compute. discriminate.
    + vm_compute in E. discriminate.
  - apply (proj2 (eta_bounds meta 2000 (num 120))). vm_compute. reflexivity.
Defined.

(** ** What reaches the queue and the request *)

(** The Add to Queue button exists in batch mode only, so an entry added
    through it is named by the output path, or by the default output of the
    tool settings when the output path is empty, and keeps the output path as
    it is (possibly empty); its labels are the last backslash-separated
    segments of the two source paths. The same holds for every entry added to
    a non-empty queue. After a successful add the mode is 'batch', whatever
    the path kinds. *)
Theorem addToQueue_batch_naming (id logId : string) (now : Z) (s : V1.State) :
  (V1.addToQueueAvailable s = true
   ∨ (V1.queue s ≠ [] ∧ V1.derivedHdrPath s ≠ "" ∧ V1.dvPath (V1.config s) ≠ "") →
   ∃ entry,
     V1.queue (V1.addToQueue id logId now s) = V1.queue s ++ [entry]
     ∧ q_outputFile entry
       = Js.or_else (V1.outputPath (V1.config s)) (V1.defaultOutput (V1.toolPaths s))
     ∧ q_outputPath entry = V1.outputPath (V1.config s)
     ∧ q_hdrFile entry = V1.baseLabel (V1.derivedHdrPath s)
     ∧ q_dvFile entry = V1.baseLabel (V1.dvPath (V1.config s)))
  ∧ (V1.derivedHdrPath s ≠ "" → V1.dvPath (V1.config s) ≠ "" →
     V1.derivedMode (V1.addToQueue id logId now s) = Batch).
Proof.
  split.
  - intros H.
    assert (Hcase : V1.derivedMode s = Batch
                    ∧ Js.truthy (V1.derivedHdrPath s) = true
                    ∧ Js.truthy (V1.dvPath (V1.config s)) = true).
    { destruct H as [H | (Hq & Hh & Hd)].
      - unfold V1.addToQueueAvailable in H.
        apply andb_true_iff in H as [Hm H]. apply bool_decide_eq_true in Hm.
        apply negb_true_iff, orb_false_iff in H as [H Hd].
        apply orb_false_iff in H as [_ Hh].
        apply negb_false_iff in Hh, Hd. done.
      - split; [|by split; apply truthy_nonempty].
        unfold V1.derivedMode. destruct (V1.queue s); [done|].
        rewrite decide_True; [done | simpl; lia]. }
    destruct Hcase as (Hm & Hh & Hd).
    unfold V1.addToQueue. rewrite Hh, Hd, Hm. simpl.
    eexists. split; [by destruct s|]. simpl.
    split; [done|]. split; [|done].
    unfold Js.or_else. by destruct (V1.outputPath (V1.config s)).
  - intros Hh Hd. apply truthy_nonempty in Hh, Hd.
    unfold V1.addToQueue. rewrite Hh, Hd. simpl.
    unfold V1.derivedMode. rewrite decide_True; [done|].
    destruct s; simpl. rewrite length_app. simpl. lia.
Qed.

Lemma addToQueue_batch_naming_witness :
  let s := V1.browseFolder true V1.TDv (Some "D:/DV")
             (V1.browseFolder true V1.THdr (Some "D:/HDR") V1.initialState) in
  map q_outputFile (V1.queue (V1.addToQueue "id-1" "log-1" 0 s)) = ["DV.HDR"].
Proof.
  intros s.
  destruct (proj1 (addToQueue_batch_naming "id-1" "log-1" 0 s))
    as (entry & Hq & Hname & _); [left; reflexivity|].
  rewrite Hq. simpl. by rewrite Hname.
Defined.

(** A start request, when one is sent, carries the derived mode, the tool
    paths and the settings of the state; its primary path is the HDR path, or
    the HDR10+ path when the HDR path is empty (the HDR10+ field then repeats
    it); its queue is a sublist of the queue, in queue order, and is empty in
    single mode. Sending it resets the step list and the file progress and
    sets the status to 'processing'; the queue, the configuration and the
    selection stay as they are. *)
Theorem start_request (dvDelay hdr10plusDelay : Qc) (logId : string) (now : Z)
  (s : V1.State) (r : V1.ProcessingRequest) :
  (V1.handleStart true dvDelay hdr10plusDelay logId now s).2
  = [V1.StartProcessing r] →
  let s' := (V1.handleStart true dvDelay hdr10plusDelay logId now s).1 in
  (V1.r_mode r = V1.derivedMode s
   ∧ V1.r_toolPaths r = V1.toolPaths s
   ∧ V1.r_parallelTasks r = V1.parallelTasks (V1.config s)
   ∧ V1.r_keepTempFiles r = V1.keepTempFiles (V1.config s)
   ∧ V1.r_dvPath r = V1.dvPath (V1.config s)
   ∧ V1.r_hdrPath r = V1.derivedHdrPath s
   ∧ (V1.hdrPath (V1.config s) = "" → V1.r_hdrPath r = V1.r_hdr10plusPath r))
  ∧ (V1.r_queue r `sublist_of` V1.queue s
     ∧ (V1.derivedMode s = Single → V1.r_queue r = []))
  ∧ (V1.status s' = Processing ∧ V1.steps s' = defaultSteps
     ∧ V1.fileProgress s' = [] ∧ V1.fileMeta s' = ∅
     ∧ V1.queue s' = V1.queue s ∧ V1.config s' = V1.config s
     ∧ V1.selectedQueueIds s' = V1.selectedQueueIds s
     ∧ V1.logs s' = V1.logs s).
Proof.
  unfold V1.handleStart.
  destruct (bool_decide (V1.derivedMode s = Single) && _); [done|].
  destruct (bool_decide (V1.derivedMode s = Batch) && _); [done|].
  simpl. intros [= <-]. simpl. split; [|split].
  - repeat split; try done. intros H. unfold V1.derivedHdrPath. by rewrite H.
  - split.
    + destruct (V1.derivedMode s); [apply sublist_nil_l|].
      case_decide; [apply sublist_filter | done].
    + by intros ->.
  - by destruct s.
Qed.

Lemma start_request_witness :
  let s :=
    V1.update_config (V1.set_dvPath "movie.dv.mkv")
      (V1.update_config (V1.set_hdr10plusPath "movie.hdr10plus.mkv")
         V1.initialState) in
  ∃ r, (V1.handleStart true (num 0) (num 0) "log-1" 0 s).2 = [V1.StartProcessing r]
       ∧ V1.r_hdrPath r = "movie.hdr10plus.mkv"
       ∧ V1.r_hdr10plusPath r = "movie.hdr10plus.mkv"
       ∧ V1.r_queue r = [].
Proof.
  intros s. eexists. split; [reflexivity|].
  edestruct (start_request (num 0) (num 0) "log-1" 0 s) as (H1 & H2 & _);
    [reflexivity|].
  destruct H1 as (_ & _ & _ & _ & _ & Hh & H10). destruct H2 as [_ Hq].
  split; [exact Hh|]. split; [symmetry; by apply H10 | by apply Hq].
Defined.

(** ** Typing paths and the mode *)

(** With an empty queue, typing a non-empty HDR path and a DV path puts the
    view in batch mode exactly when both strings end in a path separator;
    a folder chosen through the folder dialog counts as a folder whatever its
    last character. *)
Theorem typed_paths_mode (hdr dv : string) (s : V1.State) :
  V1.queue s = [] → hdr ≠ "" →
  (V1.derivedMode (V1.onInputChange V1.TDv dv (V1.onInputChange V1.THdr hdr s)) = Batch
   ↔ ends_in_separator hdr ∧ ends_in_separator dv)
  ∧ V1.derivedMode
      (V1.browseFolder true V1.TDv (Some dv)
         (V1.browseFolder true V1.THdr (Some hdr) s)) = Batch.
Proof.
  intros Hq Hhdr. apply truthy_nonempty in Hhdr.
  unfold V1.derivedMode, V1.derivedHdrKind. split.
  - destruct s as [pk cfg ? ? ? ? q ? ? ? ? ? ? ? ? ? ?]; destruct pk, cfg;
      simpl in *. subst q. simpl. rewrite Hhdr.
    rewrite <- !endsWithSeparator_spec. unfold classifyInput.
    destruct (endsWithSeparator hdr), (endsWithSeparator dv); simpl;
      split; try done; intros [? ?]; done.
  - destruct s as [pk cfg ? ? ? ? q ? ? ? ? ? ? ? ? ? ?]; destruct pk, cfg;
      simpl in *. subst q. simpl. by rewrite Hhdr.
Qed.

Lemma typed_paths_mode_witness :
  V1.derivedMode
    (V1.onInputChange V1.TDv "D:/DV/"
       (V1.onInputChange V1.THdr "D:/HDR/" V1.initialState)) = Batch.
Proof.
  apply (proj1 (typed_paths_mode "D:/HDR/" "D:/DV/" V1.initialState eq_refl
                  ltac:(discriminate))).
  split; apply endsWithSeparator_spec; reflexivity.
Defined.

(** ** Step events *)

(** A 'processing:step' event changes only the step list; the list keeps its
    length and order and every step its id, name and description; a step of
    the event's id takes the status and the progress of the event, every
    other step is untouched, so an id that no step has changes nothing. *)
Theorem step_event_updates (stepId : Z) (stepStatus : StepStatus) (progress : Qc)
  (s : V1.State) :
  let s' := V1.onStepEvent stepId stepStatus progress s in
  s' = V1.set_steps (V1.steps s') s
  ∧ map (λ step, (step_id step, step_name step, step_description step)) (V1.steps s')
    = map (λ step, (step_id step, step_name step, step_description step)) (V1.steps s)
  ∧ (∀ i step,
       V1.steps s !! i = Some step →
       V1.steps s' !! i
       = Some (if decide (step_id step = stepId)
               then mkStep (step_id step) (step_name step) (step_description step)
                      stepStatus progress
               else step))
  ∧ ((∀ step, step ∈ V1.steps s → step_id step ≠ stepId) → s' = s).
Proof.
  intros s'. subst s'. unfold V1.onStepEvent.
  split; [by destruct s|]. split; [|split].
  - destruct s; simpl. rewrite <- list_fmap_compose.
    apply list_fmap_ext. intros i step _. simpl. by case_decide.
  - intros i step Hi. destruct s; simpl in *. by rewrite list_lookup_fmap, Hi.
  - intros Hno.
    assert (Hid : map (λ step,
                         if decide (step_id step = stepId)
                         then mkStep (step_id step) (step_name step)
                                (step_description step) stepStatus progress
                         else step) (V1.steps s) = V1.steps s).
    { induction (V1.steps s) as [|x l IH]; [done|]. simpl.
      rewrite decide_False by (apply Hno; by left).
      f_equal. apply IH. intros y Hy. apply Hno. by right. }
    rewrite Hid. by destruct s.
Qed.

Lemma step_event_updates_witness :
  V1.onStepEvent 9 SActive (num 50) V1.initialState = V1.initialState.
Proof.
  apply (proj2 (proj2 (proj2 (step_event_updates 9 SActive (num 50) V1.initialState)))).
  intros step Hstep. simpl in Hstep.
  repeat (apply elem_of_cons in Hstep as [-> | Hstep]; [discriminate|]).
  by apply not_elem_of_nil in Hstep.
Defined.

(** ** The queue view *)

Lemma countStatus_cons (st : QueueStatus) (f : QueueFile) (files : list QueueFile) :
  View.countStatus st (f :: files)
  = ((if bool_decide (q_status f = st) then 1 else 0) + View.countStatus st files)%nat.
Proof. unfold View.countStatus. simpl. by destruct (bool_decide _). Qed.

(** The four status counts of the queue header add up to the length of the
    queue: every item is counted once. *)
Theorem status_counts_partition (files : list QueueFile) :
  (View.completedCount files + View.processingCount files
   + View.pendingCount files + View.errorCount files)%nat
  = length files.
Proof.
  unfold View.completedCount, View.processingCount, View.pendingCount,
    View.errorCount.
  induction files as [|f files IH]; [done|].
  rewrite !countStatus_cons. simpl length. rewrite <- IH.
  destruct (q_status f); simpl; lia.
Qed.

Lemma queue_after_set_selected (ids : gset string) (s : V1.State) :
  V1.queue (V1.set_selectedQueueIds ids s) = V1.queue s.
Proof. by destruct s. Qed.

(** The label of the select-all button tells what a click does: when it
    reads 'Unselect All' the click empties the selection; when it reads
    'Select All' and the queue ids are pairwise distinct, the click selects
    every queue item, after which (for a non-empty queue) the button reads
    'Unselect All'. *)
Theorem select_all_label (s : V1.State) :
  (View.allSelected (V1.selectedQueueIds s) (V1.queue s) = true →
   V1.selectedQueueIds (V1.onToggleAll s) = ∅)
  ∧ (View.allSelected (V1.selectedQueueIds s) (V1.queue s) = false →
     V1.queue s ≠ [] → NoDup (map q_id (V1.queue s)) →
     V1.selectedQueueIds (V1.onToggleAll s) = list_to_set (map q_id (V1.queue s))
     ∧ View.allSelected (V1.selectedQueueIds (V1.onToggleAll s))
         (V1.queue (V1.onToggleAll s)) = true).
Proof.
  unfold View.allSelected. split.
  - intros H. apply andb_true_iff in H as [_ H]. apply bool_decide_eq_true in H.
    unfold V1.onToggleAll. rewrite decide_True by done. apply selected_after_set.
  - intros H Hq Hnd.
    assert (Hlen : (0 < length (V1.queue s))%nat)
      by (destruct (V1.queue s); [done | simpl; lia]).
    assert (Hne : size (V1.selectedQueueIds s) ≠ length (V1.queue s)).
    { intros E. rewrite E in H.
      rewrite bool_decide_eq_true_2 in H by done.
      by rewrite bool_decide_eq_true_2 in H. }
    unfold V1.onToggleAll. rewrite decide_False by done.
    rewrite selected_after_set. split; [done|].
    rewrite queue_after_set_selected.
    rewrite size_list_to_set by done. rewrite length_map.
    rewrite bool_decide_eq_true_2 by done. by rewrite bool_decide_eq_true_2.
Qed.

Lemma select_all_label_witness :
  let item id :=
    mkQueueFile id "hdr" "dv" "DV.HDR" "hdr" "dv" "" QPending (num 0)
      None None None None in
  let s :=
    V1.set_selectedQueueIds {[ "A"; "B" ]}
      (V1.set_queue [item "A"; item "B"] V1.initialState) in
  V1.selectedQueueIds (V1.onToggleAll s) = ∅.
Proof.
  intros item s. apply (proj1 (select_all_label s)). vm_compute. reflexivity.
Defined.

(** The ETA label: nothing is shown without an ETA or for an ETA of 0 or
    less, so a completed item, whose ETA the queue listener sets to 0, shows
    none; below a minute the label is the seconds alone; from a minute on it
    has a minutes part. *)
Theorem eta_label (seconds : option Z) :
  (View.formatEta seconds = None
   ↔ seconds = None ∨ ∃ n, seconds = Some n ∧ (n ≤ 0)%Z)
  ∧ (∀ n, seconds = Some n → (0 < n < 60)%Z →
       View.formatEta seconds = Some (pretty n +:+ "s"))
  ∧ (∀ n, seconds = Some n → (60 ≤ n)%Z →
       View.formatEta seconds
       = Some (pretty (n / 60)%Z +:+ "m " +:+ pretty (n mod 60)%Z +:+ "s"))
  ∧ (∀ payload now item metas,
       q_id item = qp_id payload → qp_status payload = QCompleted →
       View.formatEta (q_etaSeconds (V1.queueItemUpdate payload now item metas).1)
       = None).
Proof.
  split; [|split; [|split]].
  - unfold View.formatEta. destruct seconds as [n|]; [|by split; [left|]].
    destruct (bool_decide (n = 0)%Z || bool_decide (n ≤ 0)%Z) eqn:E.
    + split; [|done]. intros _. right. exists n. split; [done|].
      apply orb_true_iff in E as [E|E]; apply bool_decide_eq_true in E; lia.
    + apply orb_false_iff in E as [E0 E1]. apply bool_decide_eq_false in E0, E1.
      destruct (bool_decide (n / 60 ≤ 0)%Z); split; try done;
        intros [?|(m & [= <-] & Hm)]; try done; lia.
  - intros n -> Hn. unfold View.formatEta.
    rewrite bool_decide_eq_false_2 by lia. rewrite bool_decide_eq_false_2 by lia.
    simpl. rewrite Z.div_small by lia. rewrite Z.mod_small by lia.
    by rewrite bool_decide_eq_true_2.
  - intros n -> Hn. unfold View.formatEta.
    rewrite bool_decide_eq_false_2 by lia. rewrite bool_decide_eq_false_2 by lia.
    simpl. rewrite bool_decide_eq_false_2; [done|].
    assert (1 ≤ n / 60)%Z by (apply Z.div_le_lower_bound; lia). lia.
  - intros payload now item metas Hid Hst.
    destruct (queueItemUpdate_item payload now item metas) as (_ & _ & H).
    destruct (H Hid) as (_ & _ & Heta & _). by rewrite (Heta Hst).
Qed.

Lemma eta_label_witness :
  View.formatEta (Some 45%Z) = Some "45s"
  ∧ View.formatEta (Some 125%Z) = Some "2m 5s".
Proof.
  split.
  - refine (proj1 (proj2 (eta_label (Some 45%Z))) 45%Z eq_refl _). lia.
  - refine (proj1 (proj2 (proj2 (eta_label (Some 125%Z)))) 125%Z eq_refl _). lia.
Defined.

(** Dropping a dragged row on the row [targetId]. A drop without a source
    id, with an empty one, or of a row on itself leaves the state as it is.
    Any other drop is the reordering of the source to the target: when both
    rows are in the queue the dragged item stands afterwards at the index the
    target had, where another item stood before, so the queue has changed.
    In every case the queue stays a permutation of what it was and nothing
    but the queue changes. *)
Theorem row_drop (sourceId : option string) (targetId : string) (s : V1.State) :
  (sourceId = None ∨ sourceId = Some "" ∨ sourceId = Some targetId →
   View.onRowDrop sourceId targetId s = s)
  ∧ (∀ source i j moved,
       sourceId = Some source → source ≠ "" → source ≠ targetId →
       V1.findIndex source (V1.queue s) = Some i →
       V1.findIndex targetId (V1.queue s) = Some j →
       V1.queue s !! i = Some moved →
       V1.queue (View.onRowDrop sourceId targetId s) !! j = Some moved
       ∧ V1.queue s !! j ≠ Some moved
       ∧ View.onRowDrop sourceId targetId s ≠ s)
  ∧ V1.queue (View.onRowDrop sourceId targetId s) ≡ₚ V1.queue s
  ∧ View.onRowDrop sourceId targetId s
    = V1.set_queue (V1.queue (View.onRowDrop sourceId targetId s)) s.
Proof.
  unfold View.onRowDrop. split; [|split; [|split]].
  - intros [-> | [-> | ->]]; try done.
    rewrite String.eqb_refl. simpl. by rewrite andb_false_r.
  - intros source i j moved -> Hne Hdiff Ei Ej Hi.
    apply truthy_nonempty in Hne. rewrite Hne.
    apply String.eqb_neq in Hdiff. rewrite Hdiff. simpl.
    pose proof (handleReorderQueue_moved source targetId s i j moved Ei Ej Hi)
      as Hmoved.
    assert (Hold : V1.queue s !! j ≠ Some moved).
    { destruct (findIndex_Some _ _ _ Ej) as (target & Hj & Hjd).
      destruct (findIndex_Some _ _ _ Ei) as (moved' & Hi' & Hid).
      rewrite Hi in Hi'. injection Hi' as <-.
      rewrite Hj. intros [= ->]. apply String.eqb_neq in Hdiff. congruence. }
    split; [done|]. split; [done|].
    intros E. rewrite E in Hmoved. done.
  - destruct sourceId as [source|]; [|done].
    destruct (Js.truthy source && negb _); [|done].
    apply handleReorderQueue_perm.
  - destruct sourceId as [source|]; [|by destruct s].
    destruct (Js.truthy source && negb _); [|by destruct s].
    apply handleReorderQueue_frame.
Qed.

Lemma row_drop_witness :
  let item id :=
    mkQueueFile id "hdr" "dv" "DV.HDR" "hdr" "dv" "" QPending (num 0)
      None None None None in
  let s := V1.set_queue [item "A"; item "B"; item "C"] V1.initialState in
  V1.queue (View.onRowDrop (Some "C") "A" s) !! 0%nat = Some (item "C")
  ∧ View.onRowDrop (Some "C") "A" s ≠ s
  ∧ View.onRowDrop (Some "A") "A" s = s.
Proof.
  intros item s.
  destruct (proj1 (proj2 (row_drop (Some "C") "A" s)) "C" 2%nat 0%nat (item "C"))
    as (Hmoved & _ & Hchanged); try reflexivity; try discriminate.
  split; [exact Hmoved|]. split; [exact Hchanged|].
  apply (proj1 (row_drop (Some "A") "A" s)). by right; right.
Defined.

(** ** Dialog options *)

(** What [openDialog] and [saveDialog] pass to the native dialogs: a flag is
    present only as [true]; filters are present only when non-empty, and never
    together with the directory flag; an empty default path is dropped; and
    passing the result through again changes nothing. *)
Theorem dialog_options_sanitized (o : Bridge.OpenOptions) (sv : Bridge.SaveOptions) :
  let o' := Bridge.sanitizeOpen o in
  let sv' := Bridge.sanitizeSave sv in
  (Bridge.o_directory o' = Some true ∨ Bridge.o_directory o' = None)
  ∧ (Bridge.o_multiple o' = Some true ∨ Bridge.o_multiple o' = None)
  ∧ (Bridge.o_directory o' = Some true → Bridge.o_filters o' = None)
  ∧ (∀ fs, Bridge.o_filters o' = Some fs →
           fs ≠ [] ∧ Bridge.o_filters o = Some fs ∧ Bridge.o_directory o ≠ Some true)
  ∧ (Bridge.o_directory o ≠ Some true →
     ∀ f fs, Bridge.o_filters o = Some (f :: fs) →
             Bridge.o_filters o' = Some (f :: fs))
  ∧ Bridge.sanitizeOpen o' = o'
  ∧ Bridge.sv_defaultPath sv' ≠ Some ""
  ∧ Bridge.sv_filters sv' ≠ Some []
  ∧ Bridge.sanitizeSave sv' = sv'.
Proof.
  intros o' sv'. subst o' sv'.
  split; [|split; [|split; [|split; [|split; [|split; [|split; [|split]]]]]]].
  - destruct o as [[[]|] ? ?]; simpl; auto.
  - destruct o as [? [[]|] ?]; simpl; auto.
  - destruct o as [[[]|] ? [[|f fs]|]]; simpl; done.
  - intros fs0. destruct o as [[[]|] ? [[|f fs]|]]; simpl; try done;
      intros [= <-]; done.
  - intros Hd f fs Hf. destruct o as [[[]|] ? ?]; simpl in *; try done;
      by rewrite Hf.
  - destruct o as [[[]|] [[]|] [[|f fs]|]]; done.
  - destruct sv as [[[|c p]|] ?]; simpl; done.
  - destruct sv as [? [[|g gs]|]]; simpl; done.
  - destruct sv as [[[|c p]|] [[|g gs]|]]; done.
Qed.

Lemma dialog_options_sanitized_witness :
  Bridge.o_filters
    (Bridge.sanitizeOpen
       (Bridge.mkOpen (Some true) (Some false)
          (Some [Bridge.mkFilter "Video" ["mkv"]]))) = None.
Proof.
  apply (proj1 (proj2 (proj2
           (dialog_options_sanitized
              (Bridge.mkOpen (Some true) (Some false)
                 (Some [Bridge.mkFilter "Video" ["mkv"]]))
              (Bridge.mkSave None None))))).
  reflexivity.
Defined.

(** ** Lazy initialisers, whatever is stored *)

(** The lazy initialisers never throw, whatever [JSON.parse] does and
    whatever the storage holds or throws; the object they return defines every
    key of the defaults; a key that the stored value does not define keeps its
    default, a key it defines takes the stored value; and a stored [null],
    number or boolean gives exactly the defaults. The tool-path loader of the
    load effect behaves the same way on an entry that parses. *)
Theorem lazy_init_total (JSON_parse : string → option Storage.json)
  (defaults : gmap string Storage.json) (hasWindow : bool)
  (getItem : Storage.outcome (option string)) :
  (∃ v,
     Storage.lazyInit JSON_parse defaults hasWindow getItem = Storage.Returns v
     ∧ dom defaults ⊆ dom v
     ∧ ∀ k, v !! k = defaults !! k
            ∨ ∃ text parsed,
                getItem = Storage.Returns (Some text)
                ∧ JSON_parse text = Some parsed
                ∧ is_Some (Storage.spread parsed !! k)
                ∧ v !! k = Storage.spread parsed !! k)
  ∧ (∀ text parsed,
       text ≠ "" → getItem = Storage.Returns (Some text) →
       JSON_parse text = Some parsed →
       Storage.lazyInit JSON_parse defaults true getItem
       = Storage.Returns (Storage.spread parsed ∪ defaults)
       ∧ Storage.loadToolsV1 JSON_parse (Some text) defaults
         = Storage.Returns
             (Storage.spread parsed ∪ Storage.toolPathsObjV1 V1.defaultToolPaths)
       ∧ (parsed = Storage.JNull ∨ (∃ n, parsed = Storage.JNum n)
          ∨ (∃ b, parsed = Storage.JBool b) →
          Storage.lazyInit JSON_parse defaults true getItem
          = Storage.Returns defaults)).
Proof.
  split.
  - unfold Storage.lazyInit, Storage.parse.
    destruct hasWindow; simpl; [|exists defaults; split; [done|]; split; [done|]; by left].
    destruct getItem as [[text|]|e]; simpl;
      try (exists defaults; split; [done|]; split; [done|]; by left).
    destruct (Js.truthy text); simpl;
      [|exists defaults; split; [done|]; split; [done|]; by left].
    destruct (JSON_parse text) as [parsed|] eqn:E; simpl;
      [|exists defaults; split; [done|]; split; [done|]; by left].
    exists (Storage.spread parsed ∪ defaults). split; [done|].
    split; [rewrite dom_union; set_solver|].
    intros k. destruct (Storage.spread parsed !! k) as [x|] eqn:Ek.
    + right. exists text, parsed. split; [done|]. split; [done|].
      split; [by eexists|]. rewrite Ek. by apply lookup_union_Some_l.
    + left. by rewrite lookup_union_r.
  - intros text parsed Hne -> Hparse.
    unfold Storage.lazyInit, Storage.loadToolsV1, Storage.parse.
    cbn [negb Storage.bind Storage.try_catch].
    rewrite (present_truthy text Hne), Hparse.
    cbn [negb Storage.bind Storage.try_catch].
    split; [done|]. split; [done|].
    intros [-> | [[n ->] | [b ->]]]; simpl; by rewrite (left_id_L ∅ (∪)).
Qed.

Lemma lazy_init_total_witness :
  let JSON_parse (text : string) :=
    if String.eqb text "null" then Some Storage.JNull else None in
  Storage.initConfigV3 JSON_parse true (Storage.Returns (Some "null"))
  = Storage.Returns Storage.defaultConfigV3.
Proof.
  intros JSON_parse.
  refine (proj2 (proj2 (proj2 (lazy_init_total JSON_parse Storage.defaultConfigV3 true
                                 (Storage.Returns (Some "null")))
                          "null" Storage.JNull _ eq_refl eq_refl)) _).
  - discriminate.
  - by left.
Defined.

(** ** The elapsed-time ETA of the other revisions *)




(** ** Browse handlers *)

(** A cancelled dialog or prompt, and an empty prompt answer, leave the state
    as it is. An accepted answer is assigned to the target slot like a typed
    path, except that the kind is fixed by the handler ('file' for the file
    dialog, 'folder' for the folder dialog) and not read off the string; the
    native dialogs accept any string, the prompt any non-empty one. *)
Theorem browse_dialogs (target : V1.Target) (s : V1.State) :
  (∀ tauri,
     V1.browseFile tauri target None s = s ∧ V1.browseFolder tauri target None s = s)
  ∧ (V1.browseFile false target (Some "") s = s
     ∧ V1.browseFolder false target (Some "") s = s)
  ∧ (∀ tauri path,
       tauri = true ∨ path ≠ "" →
       V1.browseFile tauri target (Some path) s
       = V1.update_pathKinds (V1.setKind target KFile)
           (V1.update_config (V1.assignPath target path) s)
       ∧ V1.browseFolder tauri target (Some path) s
         = V1.update_pathKinds (V1.setKind target KFolder)
             (V1.update_config (V1.assignPath target path) s)).
Proof.
  split; [|split].
  - intros tauri. unfold V1.browseFile, V1.browseFolder.
    by destruct tauri, target.
  - done.
  - intros tauri path H. unfold V1.browseFile, V1.browseFolder.
    destruct tauri; simpl.
    + by destruct target.
    + destruct H as [H|H]; [done|]. apply truthy_nonempty in H. by rewrite H.
Qed.

Lemma browse_dialogs_witness :
  V1.pk_hdr
    (V1.pathKinds (V1.browseFile true V1.THdr (Some "D:/HDR/") V1.initialState))
  = KFile.
Proof.
  destruct (proj2 (proj2 (browse_dialogs V1.THdr V1.initialState)) true "D:/HDR/")
    as [H _]; [by left|].
  rewrite H. reflexivity.
Defined.
